(** * legislai: the search front end, embedded and checked

    The development follows the React front end of the aggregator:

    - [SearchContext]  the provider that keeps filters and the search history;
    - [SearchService]  the thin wrapper over the HTTP client;
    - [UseSearch]      the [useSearch] hook: its state, the three callbacks
                       [search], [loadMore], [clearResults], and the requests
                       that are on the wire;
    - [InfiniteScroll] the scroll listener of [useInfiniteScroll];
    - [ResultsView]    what [SearchResults] renders for a hook state;
    - [Home]           the page handler that starts a search;
    - [Merger]         the ranking step of the aggregation service;
    - [SearchBar]      the search box: suggestions, keyboard, submission;
    - [ResultCard]     the label of a data field on a result card.

    JavaScript strings are modelled as [string] (code units 0..255), numbers
    that the code only ever uses as integers as [Z] (their sum rounded as a
    double rounds it), [null]/[undefined] property values as [None]. *)

From Stdlib Require Import ZArith QArith Lia Ascii String.
From stdpp Require Import base gmap strings list pretty sorting.

Open Scope string_scope.
Open Scope Z_scope.

(** ** JavaScript values *)

Module Js.

(** The JSON-like values that travel in request bodies and responses. *)
#[local] Unset Elimination Schemes.
Inductive JsVal :=
| JUndefined
| JNull
| JBool (b : bool)
| JNum (z : Z)
| JStr (s : string)
| JArr (items : list JsVal)
| JObj (fields : list (string * JsVal)).
#[local] Set Elimination Schemes.

(** An exception value: [error.name] and [error.message]. *)
Record JsError := mkError { err_name : string; err_message : string }.

(** [new Error(msg)] *)
Definition Error (msg : string) : JsError := mkError "Error" msg.

(** A settled promise. *)
Inductive Outcome (A : Type) :=
| Resolved (a : A)
| Rejected (e : JsError).
Arguments Resolved {A} a.
Arguments Rejected {A} e.

(** ToBoolean *)
Definition truthy (v : JsVal) : bool :=
  match v with
  | JUndefined | JNull => false
  | JBool b => b
  | JNum z => negb (z =? 0)
  | JStr s => negb (String.eqb s "")
  | JArr _ | JObj _ => true
  end.

Definition truthy_str (s : string) : bool := negb (String.eqb s "").

Fixpoint assoc (k : string) (fields : list (string * JsVal)) : JsVal :=
  match fields with
  | [] => JUndefined
  | (k', v) :: rest => if String.eqb k k' then v else assoc k rest
  end.

(** [v.k]: a [TypeError] on [null] and [undefined], [undefined] where the
    property is missing. *)
Definition get_prop (v : JsVal) (k : string) : Outcome JsVal :=
  match v with
  | JUndefined | JNull =>
      Rejected (mkError "TypeError" "Cannot read properties of undefined")
  | JObj fields => Resolved (assoc k fields)
  | _ => Resolved JUndefined
  end.

(** A JavaScript number is an IEEE 754 double.  [round_double z] is the
    double nearest to the integer [z], ties going to the even significand:
    every integer up to 2^53 in magnitude is a double; beyond, a double is a
    multiple of the power of two that leaves 53 significant bits. *)
Definition round_double (z : Z) : Z :=
  let a := Z.abs z in
  if a <=? 2 ^ 53 then z
  else
    let ulp := 2 ^ (Z.log2 a - 52) in
    let q := a / ulp in
    let r := a mod ulp in
    let q' := if 2 * r <? ulp then q
              else if ulp <? 2 * r then q + 1
              else if Z.even q then q else q + 1 in
    Z.sgn z * (q' * ulp).

(** [x + y] on numbers that hold integers: the exact sum, rounded. *)
Definition js_add (x y : Z) : Z := round_double (x + y).

(** White space of [String.prototype.trim] among the code units 0..255:
    TAB, LF, VT, FF, CR, SP and NBSP. *)
Definition is_whitespace (c : ascii) : bool :=
  let n := N_of_ascii c in
  ((n =? 9) || (n =? 10) || (n =? 11) || (n =? 12) || (n =? 13)
   || (n =? 32) || (n =? 160))%N.

Fixpoint trimStart (s : string) : string :=
  match s with
  | EmptyString => EmptyString
  | String c rest => if is_whitespace c then trimStart rest else s
  end.

Fixpoint trimEnd (s : string) : string :=
  match s with
  | EmptyString => EmptyString
  | String c rest =>
      match trimEnd rest with
      | EmptyString => if is_whitespace c then EmptyString else String c EmptyString
      | t => String c t
      end
  end.

Definition trim (s : string) : string := trimEnd (trimStart s).

(** [s.replace(a, b)] with one-character strings: the first occurrence. *)
Fixpoint replace_first (a b : ascii) (s : string) : string :=
  match s with
  | EmptyString => EmptyString
  | String c rest =>
      if Ascii.eqb c a then String b rest else String c (replace_first a b rest)
  end.

(** [items.join(sep)] *)
Fixpoint join (sep : string) (items : list string) : string :=
  match items with
  | [] => ""
  | [x] => x
  | x :: rest => x +:+ sep +:+ join sep rest
  end.

End Js.
Import Js.

(** ** context/SearchContext.jsx: [SearchProvider] *)

Module SearchContext.

Record Filters := mkFilters {
  f_apis : list string;
  f_categories : list string;
  f_dateStart : option string;
  f_dateEnd : option string
}.

Definition initial_filters : Filters := mkFilters [] [] None None.

(** What the provider holds: the [searchHistory] state and the entry
    ['searchHistory'] of [localStorage] ([None]: no such entry). *)
Record Provider := mkProvider {
  searchHistory : list string;
  stored : option (list string)
}.

(** The lazy initial state: the saved list, or [[]]. *)
Definition mount (saved : option (list string)) : Provider :=
  mkProvider (match saved with Some h => h | None => [] end) saved.

(** [[query, ...searchHistory.filter(item => item !== query)].slice(0, 10)] *)
Definition newHistory (query : string) (history : list string) : list string :=
  take 10 (query :: filter (λ item, item ≠ query) history).

Definition addToHistory (query : string) (p : Provider) : Provider :=
  if negb (truthy_str (trim query)) then p
  else
    let h := newHistory query (searchHistory p) in
    mkProvider h (Some h).

Definition clearHistory (p : Provider) : Provider := mkProvider [] None.

(** The invariant of the history: no entry twice, at most ten entries. *)
Definition history_ok (h : list string) : Prop :=
  NoDup h ∧ (List.length h ≤ 10)%nat.

(** The provider states that the front end itself can produce, starting
    from an empty storage. *)
Inductive reachable : Provider → Prop :=
| reach_fresh : reachable (mount None)
| reach_add q p : reachable p → reachable (addToHistory q p)
| reach_clear p : reachable p → reachable (clearHistory p)
| reach_remount p : reachable p → reachable (mount (stored p)).

End SearchContext.

(** ** services/searchService.js *)

Module SearchService.

Section WithApi.
(** [apiService] (services/api.js) is the HTTP client.  The service only
    depends on how each call settles, so the client is a parameter. *)
Context {Resp : Type}.
Variable post : string → gmap string JsVal → Outcome Resp.
Variable get : string → option (list (string * JsVal)) → Outcome JsVal.

Definition search (searchRequest : gmap string JsVal) : Outcome Resp :=
  match post "/api/v1/search" searchRequest with
  | Resolved response => Resolved response
  | Rejected error => Rejected (Error "Falha na busca. Tente novamente.")
  end.

Definition getSuggestions (query : string) : Outcome JsVal :=
  match get "/api/v1/search/suggestions" (Some [("q", JStr query)]) with
  | Resolved response =>
      match get_prop response "suggestions" with
      | Resolved v => Resolved (if truthy v then v else JArr [])
      | Rejected error => Resolved (JArr [])
      end
  | Rejected error => Resolved (JArr [])
  end.

Definition getApisStatus : Outcome JsVal :=
  match get "/api/v1/health/apis" None with
  | Resolved response =>
      match get_prop response "apis" with
      | Resolved v => Resolved (if truthy v then v else JArr [])
      | Rejected error => Resolved (JArr [])
      end
  | Rejected error => Resolved (JArr [])
  end.

Definition getHealthCheck : Outcome JsVal :=
  match get "/api/v1/health" None with
  | Resolved response => Resolved response
  | Rejected error => Rejected error
  end.
End WithApi.

End SearchService.

(** ** hooks/useSearch.js *)

Module UseSearch.

Record SearchResult := mkResult {
  id : string;
  source : string;
  category : string;
  title : string;
  description : string
}.

Inductive SourceStatus :=
| StOk | StTimeout | StRateLimited | StAuthRequired | StBadRequest | StServerError.

(** The body of a search response.  The hook reads the first seven fields;
    [r_cursor] and [r_source_status] are the two further fields of the
    response contract, which no line of the front end reads. *)
Record SearchResponse := mkResponse {
  r_results : list SearchResult;
  r_has_more : bool;
  r_total : Z;
  r_page : Z;
  r_query : string;
  r_search_time_ms : Z;
  r_apis_searched : list string;
  r_cursor : option string;
  r_source_status : list (string * SourceStatus)
}.

(** The same response with another status map. *)
Definition with_source_status (ss : list (string * SourceStatus))
    (r : SearchResponse) : SearchResponse :=
  mkResponse (r_results r) (r_has_more r) (r_total r) (r_page r) (r_query r)
             (r_search_time_ms r) (r_apis_searched r) (r_cursor r) ss.

(** The [useState] cell of the hook. *)
Record HookState := mkState {
  results : list SearchResult;
  loading : bool;
  error : option string;
  hasMore : bool;
  total : Z;
  page : Z;
  query : string;
  searchTime : Z;
  apisSearched : list string
}.

Definition initial_state : HookState :=
  mkState [] false None false 0 1 "" 0 [].

(** The argument of [search]; an absent property is [None]. *)
Record SearchParams := mkParams {
  sp_query : string;
  sp_limit : option Z;
  sp_apis : option (list string);
  sp_categories : option (list string);
  sp_dateStart : option string;
  sp_dateEnd : option string
}.

(** [...(cond && { k: v })] *)
Definition spread_if (cond : bool) (k : string) (v : JsVal)
    (o : gmap string JsVal) : gmap string JsVal :=
  if cond then <[k := v]> o else o.

Definition str_array (l : list string) : JsVal := JArr (JStr <$> l).

(** [searchParams.limit || 20] *)
Definition limit_or_default (limit : option Z) : Z :=
  match limit with
  | Some n => if n =? 0 then 20 else n
  | None => 20
  end.

Definition opt_truthy_str (o : option string) : bool :=
  match o with Some s => truthy_str s | None => false end.

Definition requestData (state : HookState) (searchParams : SearchParams)
    (resetResults : bool) : gmap string JsVal :=
  spread_if (opt_truthy_str (sp_dateEnd searchParams)) "date_end"
    (JStr (default "" (sp_dateEnd searchParams)))
  (spread_if (opt_truthy_str (sp_dateStart searchParams)) "date_start"
    (JStr (default "" (sp_dateStart searchParams)))
  (spread_if (bool_decide (is_Some (sp_categories searchParams))) "categories"
    (str_array (default [] (sp_categories searchParams)))
  (spread_if (bool_decide (is_Some (sp_apis searchParams))) "apis"
    (str_array (default [] (sp_apis searchParams)))
  (<["limit" := JNum (limit_or_default (sp_limit searchParams))]>
  (<["page" := JNum (if resetResults then 1 else js_add (page state) 1)]>
  ({["query" := JStr (sp_query searchParams)]})))))).

(** The first [setState] of [search]. *)
Definition on_start (resetResults : bool) (prev : HookState) : HookState :=
  mkState (if resetResults then [] else results prev)
          true
          None
          (hasMore prev) (total prev)
          (if resetResults then 1 else page prev)
          (query prev) (searchTime prev) (apisSearched prev).

(** The [setState] after the awaited response. *)
Definition on_response (resetResults : bool) (response : SearchResponse)
    (prev : HookState) : HookState :=
  mkState (if resetResults then r_results response
           else results prev ++ r_results response)
          false
          None
          (r_has_more response) (r_total response) (r_page response)
          (r_query response) (r_search_time_ms response)
          (r_apis_searched response).

(** The [catch] branch. *)
Definition on_error (e : JsError) (prev : HookState) : HookState :=
  if String.eqb (err_name e) "AbortError" then prev
  else
    mkState (results prev) false
            (Some (if truthy_str (err_message e) then err_message e
                   else "Erro na busca"))
            (hasMore prev) (total prev) (page prev) (query prev)
            (searchTime prev) (apisSearched prev).

(** A request handed to [searchService.search] and not settled yet.
    [p_signal] is the [AbortSignal] that the transport was given, if any;
    [p_resetResults] is the flag captured by the continuation that runs
    when the request settles. *)
Record Pending := mkPending {
  p_body : gmap string JsVal;
  p_signal : option nat;
  p_resetResults : bool
}.

(** One mounted hook: the state, [abortControllerRef.current], the
    controllers created so far (position: identity, value:
    [signal.aborted]) and the requests on the wire, oldest first. *)
Record World := mkWorld {
  hook : HookState;
  abortControllerRef : option nat;
  controllers : list bool;
  inflight : list Pending
}.

Definition initial_world : World := mkWorld initial_state None [] [].

(** [if (abortControllerRef.current) abortControllerRef.current.abort()] *)
Definition abort_current (w : World) : list bool :=
  match abortControllerRef w with
  | Some c => <[c := true]> (controllers w)
  | None => controllers w
  end.

(** [search], up to its [await]: the previous controller is aborted, a new
    one is stored in the ref, the state is set to loading, and
    [searchService.search(requestData)] is called.  The call receives the
    request body and nothing else, so the request carries no signal. *)
Definition search (searchParams : SearchParams) (resetResults : bool)
    (w : World) : World :=
  let cs := abort_current w in
  mkWorld (on_start resetResults (hook w))
          (Some (List.length cs))
          (cs ++ [false])
          (inflight w ++
             [mkPending (requestData (hook w) searchParams resetResults)
                        None resetResults]).

(** The rest of [search]: request [i] settles, [outcome] being what
    [apiService.post] produced for it. *)
Definition settle (i : nat) (outcome : Outcome SearchResponse)
    (w : World) : World :=
  match inflight w !! i with
  | None => w
  | Some p =>
      let rest := delete i (inflight w) in
      match SearchService.search (λ _ _, outcome) (p_body p) with
      | Resolved response =>
          mkWorld (on_response (p_resetResults p) response (hook w))
                  (abortControllerRef w) (controllers w) rest
      | Rejected e =>
          mkWorld (on_error e (hook w))
                  (abortControllerRef w) (controllers w) rest
      end
  end.

Definition loadMore (w : World) : World :=
  let state := hook w in
  if loading state || negb (hasMore state) || negb (truthy_str (query state))
  then w
  else search (mkParams (query state) (Some 20) None None None None) false w.

Definition clearResults (w : World) : World :=
  mkWorld initial_state (abortControllerRef w) (abort_current w) (inflight w).

(** A request on the wire keeps doing outbound work unless it was given a
    signal and that signal has been aborted. *)
Definition outbound_active (w : World) (p : Pending) : bool :=
  match p_signal p with
  | None => true
  | Some c => negb (default false (controllers w !! c))
  end.

Definition active_requests (w : World) : list Pending :=
  List.filter (outbound_active w) (inflight w).

(** No request on the wire was given a signal. *)
Definition unsignalled (w : World) : Prop :=
  Forall (λ p, p_signal p = None) (inflight w).

(** What can happen to a mounted hook. *)
Inductive Event :=
| EvSearch (searchParams : SearchParams)
| EvLoadMore
| EvClearResults
| EvSettle (i : nat) (outcome : Outcome SearchResponse).

Definition step (w : World) (e : Event) : World :=
  match e with
  | EvSearch searchParams => search searchParams true w
  | EvLoadMore => loadMore w
  | EvClearResults => clearResults w
  | EvSettle i outcome => settle i outcome w
  end.

Definition run (w : World) (es : list Event) : World := foldl step w es.

(** A search session in which every request is answered before the next
    call: the initial search, answered by [first], then one [loadMore] per
    further page, each answered by that page. *)
Definition respond (r : SearchResponse) (w : World) : World :=
  settle 0 (Resolved r) w.

Fixpoint load_pages (pages : list SearchResponse) (w : World) : World :=
  match pages with
  | [] => w
  | r :: rest => load_pages rest (respond r (loadMore w))
  end.

Definition session (searchParams : SearchParams) (first : SearchResponse)
    (more : list SearchResponse) : World :=
  load_pages more (respond first (search searchParams true initial_world)).

(** After this answer the guard of [loadMore] lets the next call through:
    it says there is more and names a query. *)
Definition continues (r : SearchResponse) : bool :=
  r_has_more r && truthy_str (r_query r).

(** The pages of a session that are asked for and received: each further
    page as long as the answer before it [continues]. *)
Fixpoint received_more (go : bool) (pages : list SearchResponse)
    : list SearchResponse :=
  match pages with
  | [] => []
  | r :: rest => if go then r :: received_more (continues r) rest else []
  end.

Definition received (first : SearchResponse) (more : list SearchResponse)
    : list SearchResponse :=
  first :: received_more (continues first) more.

End UseSearch.

(** ** hooks/useInfiniteScroll.js *)

Module InfiniteScroll.

Record Viewport := mkViewport {
  innerHeight : Z;
  scrollTop : Z;
  offsetHeight : Z
}.

(** [handleScroll]: the value of [isFetching] after one scroll event. *)
Definition handleScroll (v : Viewport) (isFetching hasMore : bool) : bool :=
  if (innerHeight v + scrollTop v >=? offsetHeight v - 1000)
     || isFetching || negb hasMore
  then isFetching
  else true.

(** One scroll event of [SearchResults], whose hook is
    [useInfiniteScroll(onLoadMore, hasMore && !loading)], with the effects
    it sets off.  When the listener turns [isFetching] to true, the effect
    on [[isFetching, callback]] calls the callback.  If that call starts a
    request, [loading] changes, [loadMore] is a new function, and the effect
    runs once more and calls the new [loadMore]; the flag is then set back
    to false, so it is no part of the result. *)
Definition on_scroll (v : Viewport) (isFetching : bool)
    (w : UseSearch.World) : UseSearch.World :=
  let st := UseSearch.hook w in
  let hasMore := UseSearch.hasMore st && negb (UseSearch.loading st) in
  if handleScroll v isFetching hasMore && negb isFetching then
    let w1 := UseSearch.loadMore w in
    if Bool.eqb (UseSearch.loading (UseSearch.hook w1)) (UseSearch.loading st)
    then w1
    else UseSearch.loadMore w1
  else w.

End InfiniteScroll.

(** ** components/search/SearchResults.jsx *)

Module ResultsView.
Import UseSearch.

Record Card := mkCard { key : string; card_result : SearchResult }.

Inductive View :=
| LoadingView (consulting : string)
| ErrorView (message : string)
| NoResultsView (query : string)
| WelcomeView
| ListView (query : string) (total : Z) (searchTime : option Z)
           (sources : list string) (cards : list Card)
           (loadingMore : bool) (endOfResults : option nat).

(** [api.replace('_', ' ')] *)
Definition badge (api : string) : string := replace_first "_" " " api.

(** [key={`${result.id}-${index}`}] *)
Definition card (index : nat) (result : SearchResult) : Card :=
  mkCard (id result +:+ "-" +:+ pretty index) result.

Definition render (st : HookState) (isFetchingMore : bool) : View :=
  let n := List.length (results st) in
  if loading st && (n =? 0)%nat then
    LoadingView (if (0 <? List.length (apisSearched st))%nat
                 then join ", " (apisSearched st)
                 else "APIs governamentais")
  else if opt_truthy_str (error st) then
    ErrorView (default "" (error st))
  else if negb (loading st) && (n =? 0)%nat && truthy_str (query st) then
    NoResultsView (query st)
  else if negb (truthy_str (query st)) && (n =? 0)%nat then
    WelcomeView
  else
    ListView (query st) (total st)
             (if 0 <? searchTime st then Some (searchTime st) else None)
             (badge <$> apisSearched st)
             (imap card (results st))
             ((loading st || isFetchingMore) && (0 <? n)%nat)
             (if negb (hasMore st) && negb (loading st) && (0 <? n)%nat
              then Some n else None).

End ResultsView.

(** ** pages/Home.jsx *)

Module Home.
Import UseSearch SearchContext.

(** [search({ query: searchQuery, ...filters })]; [resetResults] takes its
    default [true].  A rejection is logged and swallowed. *)
Definition handleSearch (filters : Filters) (searchQuery : string)
    (w : World) : World :=
  search (mkParams searchQuery None
                   (Some (f_apis filters)) (Some (f_categories filters))
                   (f_dateStart filters) (f_dateEnd filters))
         true w.

End Home.

(** ** The ranking step of the aggregation service *)

Module Merger.

(** Modelled from the spec: the merge step runs in the aggregation service
    behind [POST /api/v1/search], which the front end only calls.  A
    candidate is a normalized result with the fields the ordering looks at:
    its id, the priority of its source and its combined score. *)
Record Candidate := mkCandidate {
  c_id : string;
  c_priority : Z;
  c_score : Q
}.

(** Modelled from the spec: the order of the merged page.  [a] goes before
    [b] when its score is higher; at equal scores when its source has the
    higher priority; at equal priorities when its id is not greater. *)
Definition before (a b : Candidate) : bool :=
  match (c_score b ?= c_score a)%Q with
  | Lt => true
  | Gt => false
  | Eq =>
      match (c_priority b ?= c_priority a)%Z with
      | Lt => true
      | Gt => false
      | Eq => String.leb (c_id a) (c_id b)
      end
  end.

(** Modelled from the spec: [before] as a relation. *)
Definition precedes (a b : Candidate) : Prop := before a b = true.

#[export] Instance precedes_dec : RelDecision precedes.
Proof. intros a b. unfold precedes. apply _. Defined.

(** Modelled from the spec: the merged page is the pool of all batches of
    the round, sorted by [precedes] and capped at the page limit. *)
Definition merge (limit : nat) (batches : list (list Candidate))
    : list Candidate :=
  take limit (merge_sort precedes (concat batches)).

End Merger.

(** ** More of JavaScript's strings and collections *)

Module JsText.

(** [String.prototype.toLowerCase] on one code unit in 0..255: the letters
    A-Z and the capital letters of Latin-1 (U+00C0..U+00DE but the
    multiplication sign U+00D7) move up by 32. *)
Definition lower_char (c : ascii) : ascii :=
  let n := N_of_ascii c in
  if ((65 <=? n) && (n <=? 90)
      || (192 <=? n) && (n <=? 222) && negb (n =? 215))%N
  then ascii_of_N (n + 32)
  else c.

Fixpoint toLowerCase (s : string) : string :=
  match s with
  | EmptyString => EmptyString
  | String c rest => String (lower_char c) (toLowerCase rest)
  end.

(** [s.includes(t)] *)
Fixpoint includes (s t : string) : bool :=
  String.prefix t s ||
  match s with
  | EmptyString => false
  | String _ rest => includes rest t
  end.

(** [[...new Set(items)]]: the items in order of first occurrence. *)
Definition set_add (acc : list string) (x : string) : list string :=
  if decide (x ∈ acc) then acc else (acc ++ [x])%list.

Definition set_spread (items : list string) : list string :=
  foldl set_add [] items.

End JsText.

(** ** components/search/SearchBar.jsx *)

Module SearchBar.

(** The four [useState] cells of the bar. *)
Record BarState := mkBar {
  query : string;
  suggestions : list string;
  showSuggestions : bool;
  selectedIndex : Z
}.

Definition initial_bar : BarState := mkBar "" [] false (-1).

(** What the bar acts on: the provider of the context, the hook of the page
    (whose [handleSearch] is the [onSearch] prop) and its own state. *)
Record App := mkApp {
  provider : SearchContext.Provider;
  filters : SearchContext.Filters;
  world : UseSearch.World;
  bar : BarState
}.

Definition initial_app : App :=
  mkApp (SearchContext.mount None) SearchContext.initial_filters
        UseSearch.initial_world initial_bar.

Definition close_suggestions (b : BarState) : BarState :=
  mkBar (query b) (suggestions b) false (-1).

Definition setQuery (q : string) (b : BarState) : BarState :=
  mkBar q (suggestions b) (showSuggestions b) (selectedIndex b).

Definition setSelectedIndex (i : Z) (b : BarState) : BarState :=
  mkBar (query b) (suggestions b) (showSuggestions b) i.

(** The effect on [debouncedQuery]: [apiSuggestions] is the array of strings
    with which [searchService.getSuggestions] settled. *)
Definition historySuggestions (debouncedQuery : string)
    (searchHistory : list string) : list string :=
  List.filter
    (λ item, JsText.includes (JsText.toLowerCase item)
                             (JsText.toLowerCase debouncedQuery))
    searchHistory.

Definition combinedSuggestions (debouncedQuery : string)
    (searchHistory apiSuggestions : list string) : list string :=
  take 8 (JsText.set_spread
            (historySuggestions debouncedQuery searchHistory
             ++ apiSuggestions)%list).

Definition fetchSuggestions (debouncedQuery : string)
    (apiSuggestions : list string) (a : App) : App :=
  let b := bar a in
  mkApp (provider a) (filters a) (world a)
    (if (2 <=? String.length debouncedQuery)%nat then
       mkBar (query b)
             (combinedSuggestions debouncedQuery
                (SearchContext.searchHistory (provider a)) apiSuggestions)
             true (selectedIndex b)
     else mkBar (query b) [] false (selectedIndex b)).

Definition performSearch (searchQuery : string) (a : App) : App :=
  mkApp (SearchContext.addToHistory searchQuery (provider a))
        (filters a)
        (Home.handleSearch (filters a) searchQuery (world a))
        (close_suggestions (bar a)).

Definition handleSubmit (a : App) : App :=
  if truthy_str (trim (query (bar a)))
  then performSearch (trim (query (bar a))) a
  else a.

Definition with_bar (b : BarState) (a : App) : App :=
  mkApp (provider a) (filters a) (world a) b.

(** [handleKeyDown]; [None] is the [TypeError] raised when the selected
    index points past the suggestions and [undefined] reaches
    [addToHistory]. *)
Definition handleKeyDown (key : string) (a : App) : option App :=
  let b := bar a in
  let len := Z.of_nat (List.length (suggestions b)) in
  if negb (showSuggestions b) || (len =? 0) then Some a
  else if String.eqb key "ArrowDown" then
    Some (with_bar
            (setSelectedIndex
               (if selectedIndex b <? len - 1 then selectedIndex b + 1
                else selectedIndex b) b) a)
  else if String.eqb key "ArrowUp" then
    Some (with_bar
            (setSelectedIndex
               (if 0 <? selectedIndex b then selectedIndex b - 1 else -1) b) a)
  else if String.eqb key "Enter" then
    if 0 <=? selectedIndex b then
      match suggestions b !! Z.to_nat (selectedIndex b) with
      | Some selectedSuggestion =>
          Some (performSearch selectedSuggestion
                  (with_bar (setQuery selectedSuggestion b) a))
      | None => None
      end
    else if truthy_str (trim (query b))
    then Some (performSearch (trim (query b)) a)
    else Some a
  else if String.eqb key "Escape" then
    Some (with_bar (close_suggestions b) a)
  else Some a.

Definition handleSuggestionClick (suggestion : string) (a : App) : App :=
  performSearch suggestion (with_bar (setQuery suggestion (bar a)) a).

Definition clearQuery (a : App) : App :=
  with_bar (mkBar "" (suggestions (bar a)) false (-1)) a.

(** The selected index points at a suggestion, or at none (-1). *)
Definition index_in_range (b : BarState) : Prop :=
  -1 ≤ selectedIndex b < Z.of_nat (List.length (suggestions b)).

End SearchBar.

(** ** Observations on views and worlds *)

Module Observe.

(** The view is the list of result cards. *)
Definition is_list_view (v : ResultsView.View) : bool :=
  match v with
  | ResultsView.ListView _ _ _ _ _ _ _ => true
  | _ => false
  end.

(** The cards of a view; none when it is not the list. *)
Definition cards_of (v : ResultsView.View) : list ResultsView.Card :=
  match v with
  | ResultsView.ListView _ _ _ _ cards _ _ => cards
  | _ => []
  end.

(** The bookkeeping of abort controllers: the ref holds the newest
    controller, and every older one has been aborted. *)
Definition controllers_ok (w : UseSearch.World) : Prop :=
  match UseSearch.abortControllerRef w with
  | None => UseSearch.controllers w = []
  | Some c =>
      List.length (UseSearch.controllers w) = S c ∧
      take c (UseSearch.controllers w) = replicate c true
  end.

(** The result came in an answer among the events. *)
Definition answered (es : list UseSearch.Event) (x : UseSearch.SearchResult)
    : Prop :=
  ∃ i r, UseSearch.EvSettle i (Resolved r) ∈ es ∧ x ∈ UseSearch.r_results r.

(** The string has no hyphen. *)
Definition dash_free (s : string) : Prop := "-"%char ∉ list_ascii_of_string s.

(** The state says loading only while a request is on the wire. *)
Definition spinner_ok (w : UseSearch.World) : Prop :=
  UseSearch.loading (UseSearch.hook w) = true → UseSearch.inflight w ≠ [].

End Observe.

(** ** components/search/ResultCard.jsx: the label of a data field *)

Module ResultCard.

(** The class [[A-Z]] of the regular expression. *)
Definition is_capital (c : ascii) : bool :=
  let n := N_of_ascii c in ((65 <=? n) && (n <=? 90))%N.

(** [key.replace(/([A-Z])/g, ' $1')] *)
Fixpoint space_capitals (key : string) : string :=
  match key with
  | EmptyString => EmptyString
  | String c rest =>
      if is_capital c then String " " (String c (space_capitals rest))
      else String c (space_capitals rest)
  end.

(** [key.replace(/([A-Z])/g, ' $1').toLowerCase()] *)
Definition fieldLabel (key : string) : string :=
  JsText.toLowerCase (space_capitals key).

(** What one character of the key becomes in the label. *)
Definition label_char (c : ascii) : string :=
  if is_capital c then String " " (String (JsText.lower_char c) EmptyString)
  else String (JsText.lower_char c) EmptyString.

(** The number of capitals A-Z of the key. *)
Fixpoint capitals (key : string) : nat :=
  match key with
  | EmptyString => 0%nat
  | String c rest => ((if is_capital c then 1 else 0) + capitals rest)%nat
  end.

(** The string without its spaces. *)
Fixpoint unspaced (s : string) : string :=
  match s with
  | EmptyString => EmptyString
  | String c rest =>
      if Ascii.eqb c " " then unspaced rest else String c (unspaced rest)
  end.

End ResultCard.

(** * Properties *)

Example trim_example : trim "  a b  " = "a b".
Proof. reflexivity. Qed.

Example addToHistory_example :
  SearchContext.searchHistory
    (SearchContext.addToHistory "b" (SearchContext.mkProvider ["a"; "b"; "c"] None))
  = ["b"; "a"; "c"].
Proof. reflexivity. Qed.

(** ** The search history *)

Section History.
Import SearchContext.

Lemma trimEnd_empty s :
  trimEnd s = "" ↔ trimStart s = "".
Proof.
  induction s as [|c s IH]; simpl; [done|].
  destruct (is_whitespace c) eqn:Hc.
  - rewrite <- IH. destruct (trimEnd s); [done|]. split; discriminate.
  - destruct (trimEnd s); split; discriminate.
Qed.

Lemma trimStart_idem s : trimStart (trimStart s) = trimStart s.
Proof.
  induction s as [|c s IH]; simpl; [done|].
  destruct (is_whitespace c) eqn:Hc; [done|]. simpl. by rewrite Hc.
Qed.

(** [query.trim()] is empty exactly for the strings made of white space. *)
Lemma trim_empty_iff s :
  trim s = "" ↔ Forall (λ c, is_whitespace c = true) (list_ascii_of_string s).
Proof.
  unfold trim. rewrite trimEnd_empty, trimStart_idem.
  induction s as [|c s IH]; simpl.
  - split; [constructor|done].
  - destruct (is_whitespace c) eqn:Hc.
    + rewrite IH. split; [by constructor|by inversion 1].
    + split; [done|]. inversion 1; congruence.
Qed.

Lemma not_truthy_trim s : negb (truthy_str (trim s)) = true ↔ trim s = "".
Proof.
  unfold truthy_str. rewrite negb_involutive. apply String.eqb_eq.
Qed.

Lemma newHistory_length (q : string) (h : list string) : (List.length (newHistory q h) ≤ 10)%nat.
Proof. unfold newHistory. rewrite length_take. lia. Qed.

Lemma newHistory_shape (q : string) (h : list string) :
  newHistory q h = q :: take 9 (filter (λ item, item ≠ q) h).
Proof. reflexivity. Qed.

Lemma newHistory_tail_fresh (q : string) (h : list string) :
  q ∉ take 9 (filter (λ item, item ≠ q) h).
Proof.
  intros Hin. apply subseteq_take in Hin.
  apply list_elem_of_filter in Hin. by destruct Hin.
Qed.

Lemma newHistory_NoDup (q : string) (h : list string) : NoDup h → NoDup (newHistory q h).
Proof.
  intros Hh. rewrite newHistory_shape. apply NoDup_cons. split.
  - apply newHistory_tail_fresh.
  - eapply sublist_NoDup; [|apply sublist_take]. by apply NoDup_filter.
Qed.

Lemma addToHistory_blank q p : trim q = "" → addToHistory q p = p.
Proof.
  intros Hq. unfold addToHistory.
  by rewrite (proj2 (not_truthy_trim q) Hq).
Qed.

Lemma addToHistory_nonblank q p :
  trim q ≠ "" →
  addToHistory q p =
    mkProvider (newHistory q (searchHistory p))
               (Some (newHistory q (searchHistory p))).
Proof.
  intros Hq. unfold addToHistory.
  destruct (negb (truthy_str (trim q))) eqn:E; [|done].
  by apply not_truthy_trim in E.
Qed.

(** Every provider state the front end produces keeps the invariant, both
    in its state and in what it has saved. *)
Lemma reachable_history_ok p :
  reachable p →
  history_ok (searchHistory p) ∧
  match stored p with Some h => history_ok h | None => True end.
Proof.
  induction 1 as [|q p Hp [IH1 IH2]|p Hp [IH1 IH2]|p Hp [IH1 IH2]]; simpl.
  - split; [split; [constructor|simpl; lia]|done].
  - destruct (decide (trim q = "")) as [Hq|Hq].
    + by rewrite addToHistory_blank.
    + rewrite addToHistory_nonblank by done. simpl.
      destruct IH1 as [Hnd Hlen].
      split; (split; [by apply newHistory_NoDup|apply newHistory_length]).
  - split; [split; [constructor|simpl; lia]|done].
  - destruct (stored p) as [h|]; simpl; [done|].
    split; [split; [constructor|simpl; lia]|done].
Qed.
End History.

(** Preservation, for any history that has no entry twice and at most ten
    entries, wherever it comes from. *)
Lemma addToHistory_preserves (q : string) (p : SearchContext.Provider) :
  SearchContext.history_ok (SearchContext.searchHistory p) →
  SearchContext.history_ok
    (SearchContext.searchHistory (SearchContext.addToHistory q p)).
Proof.
  intros [Hnd Hlen].
  destruct (decide (trim q = "")) as [Hq|Hq].
  - rewrite addToHistory_blank by done. by split.
  - rewrite addToHistory_nonblank by done. simpl. split.
    + by apply newHistory_NoDup.
    + apply newHistory_length.
Qed.

(** C10.  In every state of the provider, after [addToHistory(q)] the
    history has at most ten entries and no entry twice; a [q] that is not
    blank is its first entry and occurs nowhere else; a blank [q] leaves the
    provider as it was. *)
Theorem addToHistory_invariant (q : string) (p : SearchContext.Provider) :
  SearchContext.reachable p →
  let p' := SearchContext.addToHistory q p in
  (List.length (SearchContext.searchHistory p') ≤ 10)%nat ∧
  NoDup (SearchContext.searchHistory p') ∧
  (trim q ≠ "" →
     ∃ tail, SearchContext.searchHistory p' = q :: tail ∧ q ∉ tail) ∧
  (trim q = "" → p' = p).
Proof.
  intros Hp p'. subst p'.
  destruct (addToHistory_preserves q p) as [Hnd Hlen].
  { by apply reachable_history_ok. }
  split; [done|]. split; [done|]. split.
  - intros Hq. rewrite addToHistory_nonblank by done. simpl.
    eexists. split; [apply newHistory_shape|apply newHistory_tail_fresh].
  - apply addToHistory_blank.
Qed.

Lemma addToHistory_invariant_witness :
  let p := SearchContext.addToHistory "c"
             (SearchContext.addToHistory "b"
                (SearchContext.addToHistory "a" (SearchContext.mount None))) in
  let p' := SearchContext.addToHistory "b" p in
  (List.length (SearchContext.searchHistory p') ≤ 10)%nat ∧
  NoDup (SearchContext.searchHistory p') ∧
  (trim "b" ≠ "" →
     ∃ tail, SearchContext.searchHistory p' = "b" :: tail ∧ "b" ∉ tail) ∧
  (trim "b" = "" → p' = p).
Proof.
  apply (addToHistory_invariant "b").
  repeat constructor.
Defined.

Example addToHistory_moves_to_front :
  SearchContext.searchHistory
    (SearchContext.addToHistory "b"
       (SearchContext.addToHistory "c"
          (SearchContext.addToHistory "b"
             (SearchContext.addToHistory "a" (SearchContext.mount None)))))
  = ["b"; "c"; "a"].
Proof. reflexivity. Qed.

(** ** The search service *)

(** C9.  Whatever the HTTP client does, [getSuggestions] and [getApisStatus]
    settle with a value, and with the empty list when the underlying call
    fails; [search] rejects, when the underlying call fails, with the error
    whose message is "Falha na busca. Tente novamente.", and hands on no
    response. *)
Theorem searchService_failures {Resp : Type}
    (post : string → gmap string JsVal → Outcome Resp)
    (get : string → option (list (string * JsVal)) → Outcome JsVal) :
  (∀ query, ∃ v, SearchService.getSuggestions get query = Resolved v) ∧
  (∃ v, SearchService.getApisStatus get = Resolved v) ∧
  (∀ query e,
     get "/api/v1/search/suggestions" (Some [("q", JStr query)]) = Rejected e →
     SearchService.getSuggestions get query = Resolved (JArr [])) ∧
  (∀ e,
     get "/api/v1/health/apis" None = Rejected e →
     SearchService.getApisStatus get = Resolved (JArr [])) ∧
  (∀ searchRequest e,
     post "/api/v1/search" searchRequest = Rejected e →
     SearchService.search post searchRequest
     = Rejected (mkError "Error" "Falha na busca. Tente novamente.")).
Proof.
  repeat split.
  - intros query. unfold SearchService.getSuggestions.
    destruct (get _ _) as [response|e]; [|by eexists].
    destruct (get_prop response "suggestions"); by eexists.
  - unfold SearchService.getApisStatus.
    destruct (get _ _) as [response|e]; [|by eexists].
    destruct (get_prop response "apis"); by eexists.
  - intros query e He. unfold SearchService.getSuggestions. by rewrite He.
  - intros e He. unfold SearchService.getApisStatus. by rewrite He.
  - intros req e He. unfold SearchService.search. by rewrite He.
Qed.

Lemma searchService_failures_witness :
  let failing := mkError "TypeError" "Failed to fetch" in
  let post := λ (_ : string) (_ : gmap string JsVal),
                @Rejected UseSearch.SearchResponse failing in
  let get := λ (_ : string) (_ : option (list (string * JsVal))),
               @Rejected JsVal failing in
  SearchService.getSuggestions get "edu" = Resolved (JArr []) ∧
  SearchService.getApisStatus get = Resolved (JArr []) ∧
  SearchService.search post ∅
  = Rejected (mkError "Error" "Falha na busca. Tente novamente.").
Proof.
  intros failing post get.
  destruct (searchService_failures post get) as (_ & _ & H1 & H2 & H3).
  split; [|split].
  - apply (H1 "edu" failing). reflexivity.
  - apply (H2 failing). reflexivity.
  - apply (H3 ∅ failing). reflexivity.
Defined.

(** A response without the expected property, or no response object at
    all, also gives the empty list. *)
Example getSuggestions_malformed :
  SearchService.getSuggestions (λ _ _, Resolved JNull) "edu" = Resolved (JArr [])
  ∧ SearchService.getSuggestions (λ _ _, Resolved (JObj [])) "edu"
    = Resolved (JArr [])
  ∧ SearchService.getSuggestions
      (λ _ _, Resolved (JObj [("suggestions", JArr [JStr "educação"])])) "edu"
    = Resolved (JArr [JStr "educação"]).
Proof. repeat split. Qed.

(** ** Numbers *)

(** Sums of integers are exact as long as they stay within 2^53. *)
Lemma js_add_exact (x y : Z) : Z.abs (x + y) ≤ 2 ^ 53 → js_add x y = x + y.
Proof.
  intros H. unfold js_add, round_double.
  by rewrite (proj2 (Z.leb_le _ _) H).
Qed.

(** Beyond, the next integer may not be a number: 2^53 + 1 is 2^53 again,
    and from 2^53 + 2 one step leads to 2^53 + 4. *)
Example js_add_rounds :
  js_add 41 1 = 42 ∧
  js_add (2 ^ 53) 1 = 2 ^ 53 ∧
  js_add (2 ^ 53 + 2) 1 = 2 ^ 53 + 4 ∧
  js_add (- 2 ^ 53) 1 = - 2 ^ 53 + 1.
Proof. repeat split. Qed.

(** ** The request body *)

Section RequestData.
Import UseSearch.

Lemma lookup_spread_if_ne cond k v (o : gmap string JsVal) k' :
  k ≠ k' → spread_if cond k v o !! k' = o !! k'.
Proof.
  intros Hne. unfold spread_if. destruct cond; [|done].
  by rewrite lookup_insert_ne.
Qed.

Ltac request_lookup :=
  unfold requestData;
  rewrite !lookup_spread_if_ne by done;
  repeat (rewrite lookup_insert_ne by done);
  first [apply lookup_insert_eq | apply lookup_singleton_eq
        | apply lookup_singleton_ne; done].

Lemma requestData_query st p reset :
  requestData st p reset !! "query" = Some (JStr (sp_query p)).
Proof. request_lookup. Qed.

Lemma requestData_page st p reset :
  requestData st p reset !! "page"
  = Some (JNum (if reset then 1 else js_add (page st) 1)).
Proof. request_lookup. Qed.

Lemma requestData_limit st p reset :
  requestData st p reset !! "limit"
  = Some (JNum (limit_or_default (sp_limit p))).
Proof. request_lookup. Qed.

(** No request body has a [cursor] property. *)
Lemma requestData_cursor st p reset :
  requestData st p reset !! "cursor" = None.
Proof. request_lookup. Qed.

(** The body that [loadMore] builds. *)
Lemma requestData_loadMore st q :
  requestData st (mkParams q (Some 20) None None None None) false
  = <["limit" := JNum 20]>
      (<["page" := JNum (js_add (page st) 1)]> {["query" := JStr q]}).
Proof. reflexivity. Qed.
End RequestData.

(** With the provider's initial filters the page handler sends the two
    empty arrays (an empty array is truthy) and no dates. *)
Example handleSearch_request :
  UseSearch.p_body <$> UseSearch.inflight
    (Home.handleSearch SearchContext.initial_filters "saude"
                       UseSearch.initial_world)
  = [ <["categories" := JArr []]>
        (<["apis" := JArr []]>
           (<["limit" := JNum 20]>
              (<["page" := JNum 1]> {["query" := JStr "saude"]}))) ].
Proof. reflexivity. Qed.

(** ** The hook: page size *)

(** C2, as stated, fails: a limit above 100 or below 1 is sent as it is. *)
Lemma limit_sent_unclamped :
  (∃ n, UseSearch.requestData UseSearch.initial_state
          (UseSearch.mkParams "saude" (Some 500) None None None None) true
        !! "limit" = Some (JNum n) ∧ ¬ (1 ≤ n ≤ 100)) ∧
  (∃ n, UseSearch.requestData UseSearch.initial_state
          (UseSearch.mkParams "saude" (Some (-5)) None None None None) true
        !! "limit" = Some (JNum n) ∧ ¬ (1 ≤ n ≤ 100)).
Proof.
  split.
  - exists 500. split; [reflexivity|lia].
  - exists (-5). split; [reflexivity|lia].
Qed.

(** C2, amended.  The limit sent is 20 when the caller gives none (or gives
    0), and otherwise the caller's value, unchanged. *)
Theorem limit_sent (st : UseSearch.HookState) (p : UseSearch.SearchParams)
    (resetResults : bool) :
  UseSearch.requestData st p resetResults !! "limit"
  = Some (JNum match UseSearch.sp_limit p with
               | None => 20
               | Some 0 => 20
               | Some m => m
               end).
Proof.
  rewrite requestData_limit. unfold UseSearch.limit_or_default.
  destruct (UseSearch.sp_limit p) as [[|m|m]|]; reflexivity.
Qed.

(** Hence a limit that the caller keeps within 1..100 stays there, and the
    requests of [loadMore], which always passes 20, are within it. *)
Lemma limit_sent_in_range (st : UseSearch.HookState)
    (p : UseSearch.SearchParams) (resetResults : bool) (m : Z) :
  UseSearch.sp_limit p = Some m → 1 ≤ m ≤ 100 →
  ∃ n, UseSearch.requestData st p resetResults !! "limit" = Some (JNum n) ∧
       1 ≤ n ≤ 100.
Proof.
  intros Hp Hm. rewrite requestData_limit, Hp.
  exists m. split; [|done]. simpl.
  destruct (Z.eqb_spec m 0); [lia|done].
Qed.

(** The two callers of [search] in the front end pass no limit
    ([handleSearch]) or 20 ([loadMore]); their requests carry 20. *)
Lemma handleSearch_limit (filters : SearchContext.Filters) (searchQuery : string)
    (w : UseSearch.World) :
  last (UseSearch.p_body <$> UseSearch.inflight
          (Home.handleSearch filters searchQuery w))
  ≫= (.!! "limit") = Some (JNum 20).
Proof.
  unfold Home.handleSearch, UseSearch.search. simpl.
  rewrite fmap_app. simpl. rewrite last_snoc. simpl.
  by rewrite requestData_limit.
Qed.

(** ** The hook: starting a search *)

(** C4.  Every call of the page's search handler starts afresh: the
    accumulated results are dropped and the page is set back to 1 at once,
    the request asks for page 1 whatever page the state had reached, and
    when that request is answered the results are those of the answer
    alone. *)
Theorem handleSearch_fresh_session (filters : SearchContext.Filters)
    (searchQuery : string) (w : UseSearch.World) :
  let w' := Home.handleSearch filters searchQuery w in
  UseSearch.results (UseSearch.hook w') = [] ∧
  UseSearch.page (UseSearch.hook w') = 1 ∧
  (∃ req,
     UseSearch.inflight w' = (UseSearch.inflight w ++ [req])%list ∧
     UseSearch.p_body req !! "query" = Some (JStr searchQuery) ∧
     UseSearch.p_body req !! "page" = Some (JNum 1) ∧
     UseSearch.p_body req !! "cursor" = None ∧
     UseSearch.p_resetResults req = true) ∧
  (∀ response,
     UseSearch.results
       (UseSearch.hook
          (UseSearch.settle (List.length (UseSearch.inflight w))
                            (Resolved response) w'))
     = UseSearch.r_results response).
Proof.
  intros w'. subst w'. unfold Home.handleSearch, UseSearch.search. simpl.
  repeat split.
  - eexists. split; [reflexivity|]. simpl.
    rewrite requestData_query, requestData_page, requestData_cursor. done.
  - intros response. unfold UseSearch.settle. simpl.
    rewrite lookup_app_r, Nat.sub_diag by done. reflexivity.
Qed.

(** ** The hook: [loadMore] *)

(** From the start of a search until a request settles or the results are
    cleared, [loading] records that a request is in flight. *)
Lemma search_sets_loading (p : UseSearch.SearchParams) (resetResults : bool)
    (w : UseSearch.World) :
  UseSearch.loading (UseSearch.hook (UseSearch.search p resetResults w)) = true
  ∧ UseSearch.inflight (UseSearch.search p resetResults w) ≠ [].
Proof.
  split; [reflexivity|]. unfold UseSearch.search. simpl.
  by destruct (UseSearch.inflight w).
Qed.

(** C7, as stated, fails: the guard looks at the [loading] flag, and the
    flag can be false while a request is in flight.  With two searches on
    the wire, the answer to the first clears the flag; [loadMore] then
    issues a request beside the one still pending. *)
Lemma loadMore_beside_pending_request :
  let answer :=
    UseSearch.mkResponse [UseSearch.mkResult "ibge:1" "ibge" "dados" "t1" "d1"]
                         true 40 1 "saude" 9 ["ibge"] None [] in
  let w := UseSearch.run UseSearch.initial_world
             [UseSearch.EvSearch
                (UseSearch.mkParams "saude" None None None None None);
              UseSearch.EvSearch
                (UseSearch.mkParams "obras" None None None None None);
              UseSearch.EvSettle 0 (Resolved answer)] in
  List.length (UseSearch.inflight w) = 1%nat ∧
  UseSearch.loading (UseSearch.hook w) = false ∧
  List.length (UseSearch.inflight (UseSearch.loadMore w)) = 2%nat ∧
  UseSearch.loadMore w ≠ w.
Proof.
  intros answer w. repeat split.
  intros E. apply (f_equal (λ x, List.length (UseSearch.inflight x))) in E.
  vm_compute in E. discriminate.
Qed.

(** C7, amended.  With [hasMore] false, with the [loading] flag set, or with
    no query, [loadMore] changes nothing: the state, the ref and the
    requests on the wire are what they were. *)
Theorem loadMore_noop (w : UseSearch.World) :
  UseSearch.hasMore (UseSearch.hook w) = false ∨
  UseSearch.loading (UseSearch.hook w) = true ∨
  UseSearch.query (UseSearch.hook w) = "" →
  UseSearch.loadMore w = w.
Proof.
  intros H. unfold UseSearch.loadMore.
  destruct H as [-> | [-> | ->]]; simpl.
  - by rewrite orb_true_r.
  - done.
  - by rewrite orb_true_r.
Qed.

Lemma loadMore_noop_witness :
  let r := UseSearch.mkResult "ibge:1" "ibge" "dados" "t1" "d1" in
  let exhausted :=
    UseSearch.mkWorld
      (UseSearch.mkState [r] false None false 1 1 "saude" 9 ["ibge"])
      (Some 0%nat) [false] [] in
  let busy :=
    UseSearch.search (UseSearch.mkParams "saude" (Some 20) None None None None)
      false
      (UseSearch.mkWorld
         (UseSearch.mkState [r] false None true 40 1 "saude" 9 ["ibge"])
         (Some 0%nat) [false] []) in
  let unnamed :=
    UseSearch.mkWorld
      (UseSearch.mkState [r] false None true 40 1 "" 9 ["ibge"])
      (Some 0%nat) [false] [] in
  UseSearch.loadMore exhausted = exhausted ∧
  UseSearch.loadMore busy = busy ∧
  UseSearch.loadMore unnamed = unnamed.
Proof.
  intros r exhausted busy unnamed. split; [|split].
  - apply (loadMore_noop exhausted). left. reflexivity.
  - apply (loadMore_noop busy). right. left. reflexivity.
  - apply (loadMore_noop unnamed). right. right. reflexivity.
Defined.

(** The flag is set by every search that starts, so [loadMore] does nothing
    right after one. *)
Lemma loadMore_after_search (p : UseSearch.SearchParams) (resetResults : bool)
    (w : UseSearch.World) :
  UseSearch.loadMore (UseSearch.search p resetResults w)
  = UseSearch.search p resetResults w.
Proof. reflexivity. Qed.

(** C3, as stated, fails: the follow-up request carries a page number, not
    the cursor of the previous response.  After a first page answered with
    cursor "c1", [loadMore] sends exactly query, page 2 and limit 20. *)
Lemma loadMore_sends_no_cursor :
  let first :=
    UseSearch.mkResponse [UseSearch.mkResult "r1" "ibge" "dados" "t" "d"]
      true 40 1 "saude" 12 ["ibge"] (Some "c1") [("ibge", UseSearch.StOk)] in
  let w := UseSearch.respond first
             (UseSearch.search
                (UseSearch.mkParams "saude" None None None None None) true
                UseSearch.initial_world) in
  UseSearch.r_cursor first = Some "c1" ∧
  ∃ req, UseSearch.inflight (UseSearch.loadMore w) = [req] ∧
         UseSearch.p_body req
         = <["limit" := JNum 20]>
             (<["page" := JNum 2]> {["query" := JStr "saude"]}) ∧
         UseSearch.p_body req !! "cursor" = None ∧
         ¬ ∃ k, UseSearch.p_body req !! k = Some (JStr "c1").
Proof.
  intros first w. split; [reflexivity|].
  eexists. split; [reflexivity|]. split; [reflexivity|].
  split; [reflexivity|].
  intros [k Hk]. cbn in Hk.
  destruct (decide (k = "limit")) as [->|?]; [discriminate|].
  rewrite lookup_insert_ne in Hk by done.
  destruct (decide (k = "page")) as [->|?]; [discriminate|].
  rewrite lookup_insert_ne in Hk by done.
  destruct (decide (k = "query")) as [->|?]; [discriminate|].
  by rewrite lookup_singleton_ne in Hk.
Qed.

(** C3, amended.  When [loadMore] is called with [hasMore] true, nothing
    loading and a query active, it issues exactly one follow-up request,
    which carries that query, limit 20 and the number [state.page + 1], the
    page after the page of the state as long as that is below 2^53; it
    carries no cursor, and its answer is appended to the results. *)
Theorem loadMore_follow_up (w : UseSearch.World) :
  UseSearch.hasMore (UseSearch.hook w) = true →
  UseSearch.loading (UseSearch.hook w) = false →
  UseSearch.query (UseSearch.hook w) ≠ "" →
  ∃ req,
    UseSearch.inflight (UseSearch.loadMore w)
    = (UseSearch.inflight w ++ [req])%list ∧
    UseSearch.p_body req
    = <["limit" := JNum 20]>
        (<["page" := JNum (js_add (UseSearch.page (UseSearch.hook w)) 1)]>
           {["query" := JStr (UseSearch.query (UseSearch.hook w))]}) ∧
    (- 2 ^ 53 ≤ UseSearch.page (UseSearch.hook w) < 2 ^ 53 →
     UseSearch.p_body req !! "page"
     = Some (JNum (UseSearch.page (UseSearch.hook w) + 1))) ∧
    UseSearch.p_body req !! "cursor" = None ∧
    UseSearch.p_resetResults req = false.
Proof.
  intros Hmore Hload Hq. unfold UseSearch.loadMore.
  rewrite Hmore, Hload. simpl.
  assert (truthy_str (UseSearch.query (UseSearch.hook w)) = true) as ->.
  { unfold truthy_str. apply negb_true_iff. by apply String.eqb_neq. }
  simpl. eexists. split; [reflexivity|]. simpl.
  split; [reflexivity|]. split; [|split; [apply requestData_cursor|done]].
  intros Hpage. rewrite requestData_page. by rewrite js_add_exact by lia.
Qed.

Lemma loadMore_follow_up_witness :
  let w := UseSearch.mkWorld
             (UseSearch.mkState
                [UseSearch.mkResult "ibge:1" "ibge" "dados" "t1" "d1"]
                false None true 40 3 "saude" 12 ["ibge"])
             (Some 1%nat) [true; false]
             [UseSearch.mkPending {["query" := JStr "obras"]} None true] in
  ∃ req,
    UseSearch.inflight (UseSearch.loadMore w)
    = [UseSearch.mkPending {["query" := JStr "obras"]} None true; req] ∧
    UseSearch.p_body req
    = <["limit" := JNum 20]>
        (<["page" := JNum 4]> {["query" := JStr "saude"]}) ∧
    (- 2 ^ 53 ≤ 3 < 2 ^ 53 →
     UseSearch.p_body req !! "page" = Some (JNum 4)) ∧
    UseSearch.p_body req !! "cursor" = None ∧
    UseSearch.p_resetResults req = false.
Proof.
  intros w.
  apply (loadMore_follow_up w); [reflexivity|reflexivity|discriminate].
Defined.

(** The page that is sent is the one after the page of the last answer. *)
Lemma loadMore_after_response (r : UseSearch.SearchResponse) (resetResults : bool)
    (st : UseSearch.HookState) (q : string) :
  UseSearch.requestData (UseSearch.on_response resetResults r st)
    (UseSearch.mkParams q (Some 20) None None None None) false !! "page"
  = Some (JNum (js_add (UseSearch.r_page r) 1)).
Proof. by rewrite requestData_page. Qed.

(** ** The hook: accumulated results *)

Section Accumulation.
Import UseSearch.

Lemma respond_idle r w : inflight w = [] → respond r w = w.
Proof. intros H. unfold respond, settle. by rewrite H. Qed.

Lemma respond_single r w p :
  inflight w = [p] →
  respond r w
  = mkWorld (on_response (p_resetResults p) r (hook w))
            (abortControllerRef w) (controllers w) [].
Proof. intros H. unfold respond, settle. by rewrite H. Qed.

(** Once [loadMore] has nothing to do it never has again. *)
Lemma load_pages_stuck pages w :
  inflight w = [] → loadMore w = w → load_pages pages w = w.
Proof.
  intros Hw Hstuck. induction pages as [|r rest IH]; simpl; [done|].
  by rewrite Hstuck, respond_idle.
Qed.

Lemma loadMore_cases w :
  loadMore w = w ∨
  loadMore w
  = search (mkParams (query (hook w)) (Some 20) None None None None) false w.
Proof.
  unfold loadMore.
  destruct (loading (hook w) || negb (hasMore (hook w))
            || negb (truthy_str (query (hook w)))); auto.
Qed.

Lemma load_pages_results pages : ∀ w,
  inflight w = [] →
  ∃ k, results (hook (load_pages pages w))
       = (results (hook w) ++ concat (r_results <$> take k pages))%list.
Proof.
  induction pages as [|r rest IH]; intros w Hw; simpl.
  - exists 0%nat. simpl. by rewrite app_nil_r.
  - destruct (loadMore_cases w) as [Hstuck|Hgo].
    + exists 0%nat. rewrite Hstuck, respond_idle by done.
      rewrite load_pages_stuck by done. simpl. by rewrite app_nil_r.
    + rewrite Hgo.
      erewrite respond_single; [|by unfold search; rewrite Hw].
      edestruct IH as [k Hk]; [|exists (S k); rewrite Hk]; [done|].
      simpl. by rewrite <- app_assoc.
Qed.

Lemma session_results_concat searchParams first more :
  ∃ k, results (hook (session searchParams first more))
       = concat (r_results <$> first :: take k more).
Proof.
  unfold session.
  erewrite respond_single; [|reflexivity].
  edestruct load_pages_results as [k Hk]; [|exists k; rewrite Hk]; done.
Qed.

Lemma received_more_stop pages : received_more false pages = [].
Proof. by destruct pages. Qed.

Lemma load_pages_received pages : ∀ w,
  inflight w = [] → loading (hook w) = false →
  results (hook (load_pages pages w))
  = (results (hook w) ++
     concat (r_results <$>
               received_more (hasMore (hook w) && truthy_str (query (hook w)))
                             pages))%list.
Proof.
  induction pages as [|r rest IH]; intros w Hw Hload; simpl.
  - by rewrite app_nil_r.
  - unfold loadMore. rewrite Hload. simpl.
    destruct (hasMore (hook w)) eqn:Hmore; simpl.
    + destruct (truthy_str (query (hook w))) eqn:Hq; simpl.
      * erewrite respond_single; [|by unfold search; rewrite Hw].
        rewrite IH by done. simpl. by rewrite <- app_assoc.
      * rewrite respond_idle by done. rewrite IH by done.
        rewrite Hmore, Hq. simpl. by rewrite received_more_stop.
    + rewrite respond_idle by done. rewrite IH by done.
      rewrite Hmore. simpl. by rewrite received_more_stop.
Qed.

Lemma session_received searchParams first more :
  results (hook (session searchParams first more))
  = concat (r_results <$> received first more).
Proof.
  unfold session, received.
  erewrite respond_single; [|reflexivity].
  rewrite load_pages_received by done. reflexivity.
Qed.

Lemma loadMore_appends w r :
  hasMore (hook w) = true → loading (hook w) = false → query (hook w) ≠ "" →
  results (hook (settle (List.length (inflight w)) (Resolved r) (loadMore w)))
  = (results (hook w) ++ r_results r)%list.
Proof.
  intros Hmore Hload Hq. unfold loadMore. rewrite Hmore, Hload. simpl.
  assert (truthy_str (query (hook w)) = true) as ->.
  { unfold truthy_str. apply negb_true_iff. by apply String.eqb_neq. }
  simpl. unfold settle, search. simpl.
  rewrite lookup_app_r, Nat.sub_diag by done. reflexivity.
Qed.

Lemma NoDup_ids_prefix (first : SearchResponse) more k :
  NoDup (id <$> concat (r_results <$> first :: more)) →
  NoDup (id <$> concat (r_results <$> first :: take k more)).
Proof.
  intros H. eapply sublist_NoDup; [exact H|].
  apply fmap_sublist. simpl.
  apply sublist_app; [done|].
  rewrite <- (take_drop k more) at 2. rewrite fmap_app, concat_app.
  apply sublist_inserts_r. done.
Qed.
End Accumulation.

(** C1, as stated, fails: [loadMore] appends the whole page it receives.
    When the second page overlaps the first (the upstream offset moved by
    one), the overlapping result is displayed twice. *)
Lemma loadMore_appends_duplicate_ids :
  let r1 := UseSearch.mkResult "ibge:1" "ibge" "dados" "t1" "d1" in
  let r2 := UseSearch.mkResult "ibge:2" "ibge" "dados" "t2" "d2" in
  let r3 := UseSearch.mkResult "ibge:3" "ibge" "dados" "t3" "d3" in
  let page1 := UseSearch.mkResponse [r1; r2] true 3 1 "saude" 9 ["ibge"] None [] in
  let page2 := UseSearch.mkResponse [r2; r3] false 3 2 "saude" 7 ["ibge"] None [] in
  let w := UseSearch.session
             (UseSearch.mkParams "saude" None None None None None)
             page1 [page2] in
  UseSearch.results (UseSearch.hook w) = [r1; r2; r2; r3] ∧
  ¬ NoDup (UseSearch.id <$> UseSearch.results (UseSearch.hook w)).
Proof.
  intros r1 r2 r3 page1 page2 w. split; [reflexivity|].
  intros H. apply (bool_decide_pack _) in H. vm_compute in H. exact H.
Qed.

(** C1, amended.  In every search session the accumulated list is the
    concatenation, in order, of the pages received: the first page and the
    page of each [loadMore] call that issued a request.  Each such call
    appends every result of its page, whether or not its id was emitted
    before.  So the list has no two entries with the same id whenever the
    pages received have none. *)
Theorem session_results (searchParams : UseSearch.SearchParams)
    (first : UseSearch.SearchResponse) (more : list UseSearch.SearchResponse) :
  UseSearch.results
    (UseSearch.hook (UseSearch.session searchParams first more))
  = concat (UseSearch.r_results <$> UseSearch.received first more) ∧
  (∀ w r,
     UseSearch.hasMore (UseSearch.hook w) = true →
     UseSearch.loading (UseSearch.hook w) = false →
     UseSearch.query (UseSearch.hook w) ≠ "" →
     UseSearch.results
       (UseSearch.hook
          (UseSearch.settle (List.length (UseSearch.inflight w)) (Resolved r)
                            (UseSearch.loadMore w)))
     = (UseSearch.results (UseSearch.hook w) ++ UseSearch.r_results r)%list) ∧
  (NoDup (UseSearch.id <$>
            concat (UseSearch.r_results <$> UseSearch.received first more)) →
   NoDup (UseSearch.id <$>
            UseSearch.results
              (UseSearch.hook (UseSearch.session searchParams first more)))).
Proof.
  split; [apply session_received|]. split; [apply loadMore_appends|].
  by rewrite session_received.
Qed.

Lemma session_results_witness :
  let r1 := UseSearch.mkResult "ibge:1" "ibge" "dados" "t1" "d1" in
  let r2 := UseSearch.mkResult "ibge:2" "ibge" "dados" "t2" "d2" in
  let r3 := UseSearch.mkResult "ibge:3" "ibge" "dados" "t3" "d3" in
  let page1 := UseSearch.mkResponse [r1; r2] true 3 1 "saude" 9 ["ibge"] None [] in
  let page2 := UseSearch.mkResponse [r3] false 3 2 "saude" 7 ["ibge"] None [] in
  let page3 := UseSearch.mkResponse [r1] false 3 3 "saude" 7 ["ibge"] None [] in
  let w := UseSearch.session
             (UseSearch.mkParams "saude" None None None None None)
             page1 [page2; page3] in
  UseSearch.results (UseSearch.hook w) = [r1; r2; r3] ∧
  NoDup (UseSearch.id <$> UseSearch.results (UseSearch.hook w)) ∧
  UseSearch.results
    (UseSearch.hook
       (UseSearch.settle 0 (Resolved page2)
          (UseSearch.loadMore
             (UseSearch.respond page1
                (UseSearch.search
                   (UseSearch.mkParams "saude" None None None None None) true
                   UseSearch.initial_world)))))
  = [r1; r2; r3].
Proof.
  intros r1 r2 r3 page1 page2 page3 w.
  destruct (session_results
              (UseSearch.mkParams "saude" None None None None None)
              page1 [page2; page3]) as (Hall & Hstep & Hnd).
  split; [exact Hall|]. split.
  - apply Hnd. apply (bool_decide_unpack _). vm_compute. reflexivity.
  - apply (Hstep
             (UseSearch.respond page1
                (UseSearch.search
                   (UseSearch.mkParams "saude" None None None None None) true
                   UseSearch.initial_world)) page2);
      [reflexivity|reflexivity|discriminate].
Defined.

(** ** The hook and the view: what a response shows *)

(** C5, as stated, fails: the front end never reads [source_status].  A
    response in which one source timed out is displayed exactly like the
    response in which every source is "ok". *)
Lemma source_status_not_surfaced :
  let r1 := UseSearch.mkResult "ibge:1" "ibge" "dados" "t1" "d1" in
  let answer ss :=
    UseSearch.mkResponse [r1] false 1 1 "saude" 9 ["ibge"; "senado_federal"]
                         None ss in
  let shown ss :=
    ResultsView.render
      (UseSearch.hook
         (UseSearch.respond (answer ss)
            (UseSearch.search
               (UseSearch.mkParams "saude" None None None None None) true
               UseSearch.initial_world)))
      false in
  shown [("ibge", UseSearch.StOk); ("senado_federal", UseSearch.StTimeout)]
  = shown [("ibge", UseSearch.StOk); ("senado_federal", UseSearch.StOk)] ∧
  shown [("ibge", UseSearch.StOk); ("senado_federal", UseSearch.StTimeout)]
  = ResultsView.ListView "saude" 1 (Some 9) ["ibge"; "senado federal"]
      [ResultsView.mkCard "ibge:1-0" r1] false (Some 1%nat).
Proof. split; reflexivity. Qed.

(** C5, amended.  A response that arrives is never a failure of the search:
    the error is cleared, the list [apis_searched] of the response is stored
    and every result of the response is kept.  When the results at hand are
    not empty the view is the list, with a card for each result and
    [apis_searched] as the sources; when they are empty it is the no-results
    view (the welcome view if the response names no query), which names no
    source.  The status map plays no part in the state. *)
Theorem response_shown (resetResults : bool) (r : UseSearch.SearchResponse)
    (prev : UseSearch.HookState) (isFetchingMore : bool) :
  let st := UseSearch.on_response resetResults r prev in
  UseSearch.error st = None ∧
  UseSearch.apisSearched st = UseSearch.r_apis_searched r ∧
  UseSearch.r_results r `suffix_of` UseSearch.results st ∧
  (∀ ss, UseSearch.on_response resetResults
           (UseSearch.with_source_status ss r) prev = st) ∧
  ResultsView.render st isFetchingMore
  = match UseSearch.results st with
    | [] => if truthy_str (UseSearch.r_query r)
            then ResultsView.NoResultsView (UseSearch.r_query r)
            else ResultsView.WelcomeView
    | _ :: _ =>
        ResultsView.ListView (UseSearch.r_query r) (UseSearch.r_total r)
          (if 0 <? UseSearch.r_search_time_ms r
           then Some (UseSearch.r_search_time_ms r) else None)
          (ResultsView.badge <$> UseSearch.r_apis_searched r)
          (imap ResultsView.card (UseSearch.results st))
          isFetchingMore
          (if UseSearch.r_has_more r then None
           else Some (List.length (UseSearch.results st)))
    end.
Proof.
  intros st. subst st. repeat split.
  - simpl. destruct resetResults; [done|]. by apply suffix_app_r.
  - unfold ResultsView.render. simpl.
    destruct (if resetResults then _ else _) as [|x l] eqn:E; simpl.
    + by destruct (truthy_str (UseSearch.r_query r)).
    + rewrite andb_true_r.
      destruct (truthy_str (UseSearch.r_query r)); simpl;
        by destruct (UseSearch.r_has_more r).
Qed.

(** ** The hook: cancellation *)

Section Cancellation.
Import UseSearch.

Lemma step_unsignalled w e : unsignalled w → unsignalled (step w e).
Proof.
  unfold unsignalled. intros Hw. destruct e as [sp| | |i outcome]; simpl.
  - apply Forall_app. split; [done|]. by repeat constructor.
  - destruct (loadMore_cases w) as [->| ->]; [done|].
    apply Forall_app. split; [done|]. by repeat constructor.
  - done.
  - unfold settle. destruct (inflight w !! i) as [p|] eqn:Hp; [|done].
    destruct (SearchService.search _ _); simpl; by apply Forall_delete.
Qed.

Lemma run_unsignalled es : ∀ w, unsignalled w → unsignalled (run w es).
Proof.
  induction es as [|e es IH]; intros w Hw; simpl; [done|].
  apply IH. by apply step_unsignalled.
Qed.

Lemma unsignalled_active w : unsignalled w → active_requests w = inflight w.
Proof.
  unfold unsignalled, active_requests. induction 1 as [|p l Hp Hl IH]; simpl.
  - done.
  - unfold outbound_active at 1. rewrite Hp. by rewrite IH.
Qed.

(** Whatever the hook has been through, aborting a controller stops no
    request: every request on the wire is still doing outbound work. *)
Lemma abort_stops_nothing es :
  active_requests (run initial_world es) = inflight (run initial_world es).
Proof.
  apply unsignalled_active, run_unsignalled. constructor.
Qed.
End Cancellation.

(** C8, on the code.  A second search started while the first is on the wire
    aborts the first controller, yet both requests remain on the wire and
    both keep doing outbound work; the same holds for the request that is
    on the wire when the results are cleared.  The answer to the superseded
    request, arriving late, is then put on display. *)
Theorem overlapping_searches_both_active :
  let first := UseSearch.mkParams "saude" None None None None None in
  let second := UseSearch.mkParams "educacao" None None None None None in
  let w1 := UseSearch.search first true UseSearch.initial_world in
  let w2 := UseSearch.search second true w1 in
  let stale :=
    UseSearch.mkResponse [UseSearch.mkResult "ibge:1" "ibge" "dados" "t1" "d1"]
                         false 1 1 "saude" 9 ["ibge"] None [] in
  UseSearch.controllers w2 = [true; false] ∧
  List.length (UseSearch.active_requests w2) = 2%nat ∧
  (UseSearch.p_body <$> UseSearch.active_requests w2) !! 0%nat
  = Some (UseSearch.requestData UseSearch.initial_state first true) ∧
  UseSearch.controllers (UseSearch.clearResults w1) = [true] ∧
  List.length (UseSearch.active_requests (UseSearch.clearResults w1)) = 1%nat ∧
  UseSearch.query
    (UseSearch.hook (UseSearch.settle 0 (Resolved stale) w2)) = "saude".
Proof. repeat split. Qed.

(** ** The scroll listener *)

(** Within 1000 pixels of the end of the document the listener returns
    without asking for more. *)
Lemma handleScroll_near_end (v : InfiniteScroll.Viewport) (isFetching hasMore : bool) :
  InfiniteScroll.offsetHeight v - 1000
  ≤ InfiniteScroll.innerHeight v + InfiniteScroll.scrollTop v →
  InfiniteScroll.handleScroll v isFetching hasMore = isFetching.
Proof.
  intros H. unfold InfiniteScroll.handleScroll.
  assert ((InfiniteScroll.innerHeight v + InfiniteScroll.scrollTop v
           >=? InfiniteScroll.offsetHeight v - 1000) = true) as ->; [|done].
  apply Z.geb_le. lia.
Qed.

(** Further away from the end, a scroll event asks for more. *)
Lemma handleScroll_far_from_end (v : InfiniteScroll.Viewport) :
  InfiniteScroll.innerHeight v + InfiniteScroll.scrollTop v
  < InfiniteScroll.offsetHeight v - 1000 →
  InfiniteScroll.handleScroll v false true = true.
Proof.
  intros H. unfold InfiniteScroll.handleScroll.
  assert ((InfiniteScroll.innerHeight v + InfiniteScroll.scrollTop v
           >=? InfiniteScroll.offsetHeight v - 1000) = false) as ->; [|done].
  rewrite Z.geb_leb. apply Z.leb_gt. lia.
Qed.

Example scroll_at_the_end_fetches_nothing :
  let w := UseSearch.mkWorld
             (UseSearch.mkState [] false None true 40 1 "saude" 12 ["ibge"])
             (Some 0%nat) [false] [] in
  InfiniteScroll.on_scroll (InfiniteScroll.mkViewport 800 4200 5000) false w
  = w.
Proof. reflexivity. Qed.

(** ** The merged page *)

Section MergeOrder.
Import Merger.

(** [before] says what the ordering rule says. *)
Lemma before_spec a b :
  precedes a b ↔
  (c_score b < c_score a)%Q ∨
  ((c_score a == c_score b)%Q ∧
   (c_priority b < c_priority a ∨
    (c_priority a = c_priority b ∧ String.le (c_id a) (c_id b)))).
Proof.
  unfold precedes, before.
  destruct (Qcompare_spec (c_score b) (c_score a)) as [Hs|Hs|Hs].
  - destruct (Z.compare_spec (c_priority b) (c_priority a)) as [Hp|Hp|Hp].
    + unfold String.le. rewrite Is_true_true. split.
      * intros H. right. split; [by symmetry|]. right. done.
      * intros [H|[_ [H|[_ H]]]]; [|lia|done].
        rewrite Hs in H. by apply Qlt_irrefl in H.
    + split; [|done]. intros _. right. split; [by symmetry|]. by left.
    + split; [done|]. intros [H|[_ [H|[H _]]]]; [|lia..].
      rewrite Hs in H. by apply Qlt_irrefl in H.
  - split; [|done]. by left.
  - split; [done|]. intros [H|[H _]]; exfalso.
    + by apply (Qlt_irrefl (c_score a)), (Qlt_trans _ (c_score b)).
    + rewrite H in Hs. by apply Qlt_irrefl in Hs.
Qed.

#[local] Instance precedes_total : Total precedes.
Proof.
  intros a b. rewrite !before_spec.
  destruct (Qcompare_spec (c_score a) (c_score b)) as [Hs|Hs|Hs]; [|auto..].
  destruct (Z.compare_spec (c_priority a) (c_priority b)) as [Hp|Hp|Hp].
  - destruct (total String.le (c_id a) (c_id b)).
    + left. right. auto.
    + right. right. split; [by symmetry|]. auto.
  - right. right. split; [by symmetry|]. auto.
  - left. right. auto.
Qed.

#[local] Instance precedes_trans : Transitive precedes.
Proof.
  intros a b c. rewrite !before_spec.
  intros [H1|[E1 H1]] [H2|[E2 H2]].
  - left. by apply (Qlt_trans _ (c_score b)).
  - left. by rewrite <- E2.
  - left. by rewrite E1.
  - right. split; [by rewrite E1|].
    destruct H1 as [H1|[P1 H1]], H2 as [H2|[P2 H2]]; [left; lia..|].
    right. split; [congruence|]. by etrans.
Qed.

Lemma merge_StronglySorted limit batches :
  StronglySorted precedes (merge limit batches).
Proof.
  unfold merge.
  pose proof (StronglySorted_merge_sort precedes (concat batches)) as H.
  rewrite <- (take_drop limit (merge_sort precedes (concat batches))) in H.
  by apply StronglySorted_app_1_l in H.
Qed.

Lemma StronglySorted_lookup {A} (R : relation A) (l : list A) :
  StronglySorted R l →
  ∀ i j a b, (i < j)%nat → l !! i = Some a → l !! j = Some b → R a b.
Proof.
  induction 1 as [|x l Hl IH Hx]; intros i j a b Hij Hi Hj; [done|].
  destruct j as [|j]; [lia|]. simpl in Hj.
  destruct i as [|i]; simpl in Hi.
  - injection Hi as <-. rewrite Forall_forall in Hx.
    apply Hx. by eapply list_elem_of_lookup_2.
  - apply (IH i j); [lia|done..].
Qed.

Lemma NoDup_fmap_eq {A B} (f : A → B) (l : list A) x y :
  NoDup (f <$> l) → x ∈ l → y ∈ l → f x = f y → x = y.
Proof.
  induction l as [|z l IH]; simpl; intros Hnd Hx Hy Hf; [by inv Hx|].
  apply NoDup_cons in Hnd as [Hz Hnd].
  inv Hx; inv Hy; [done| | |by apply IH].
  - exfalso. apply Hz. rewrite Hf. by apply list_elem_of_fmap_2.
  - exfalso. apply Hz. rewrite <- Hf. by apply list_elem_of_fmap_2.
Qed.

(** Two candidates that each go before the other have the same id. *)
Lemma precedes_antisym_id a b : precedes a b → precedes b a → c_id a = c_id b.
Proof.
  rewrite !before_spec.
  intros [H1|[E1 H1]] [H2|[E2 H2]].
  - exfalso.
    by apply (Qlt_irrefl (c_score a)), (Qlt_trans _ (c_score b)).
  - exfalso. rewrite E2 in H1. by apply Qlt_irrefl in H1.
  - exfalso. rewrite E1 in H2. by apply Qlt_irrefl in H2.
  - destruct H1 as [H1|[P1 H1]], H2 as [H2|[P2 H2]]; [lia..|].
    by apply (anti_symm String.le).
Qed.

(** The merged page does not depend on the order in which the batches, or
    the results within them, arrive, as long as ids are unique. *)
Lemma merge_order_independent limit batches1 batches2 :
  NoDup (c_id <$> concat batches1) →
  concat batches1 ≡ₚ concat batches2 →
  merge limit batches1 = merge limit batches2.
Proof.
  intros Hnd Hperm. unfold merge. f_equal.
  apply (StronglySorted_unique_strong precedes).
  - intros x1 x2 Hx1 Hx2 H12 H21.
    rewrite merge_sort_Permutation in Hx1, Hx2. rewrite <- Hperm in Hx2.
    eapply NoDup_fmap_eq; [exact Hnd|done..|].
    by apply precedes_antisym_id.
  - apply StronglySorted_merge_sort; apply _.
  - apply StronglySorted_merge_sort; apply _.
  - by rewrite !merge_sort_Permutation.
Qed.
End MergeOrder.

(** C6.  In the merged page a result that comes earlier has a score at least
    as high as one that comes later; when their scores are equal, its
    source has at least the priority of the other's; and when the priorities
    are equal too, its id is the lower one. *)
Theorem merge_ordered (limit : nat) (batches : list (list Merger.Candidate))
    (i j : nat) (a b : Merger.Candidate) :
  (i < j)%nat →
  Merger.merge limit batches !! i = Some a →
  Merger.merge limit batches !! j = Some b →
  (Merger.c_score b <= Merger.c_score a)%Q ∧
  ((Merger.c_score a == Merger.c_score b)%Q →
   Merger.c_priority b ≤ Merger.c_priority a ∧
   (Merger.c_priority a = Merger.c_priority b →
    String.le (Merger.c_id a) (Merger.c_id b))).
Proof.
  intros Hij Hi Hj.
  pose proof (StronglySorted_lookup _ _ (merge_StronglySorted limit batches)
                i j a b Hij Hi Hj) as H.
  apply before_spec in H. destruct H as [H|[E H]].
  - split; [by apply Qlt_le_weak|].
    intros E. rewrite E in H. by apply Qlt_irrefl in H.
  - split; [rewrite E; apply Qle_refl|]. intros _.
    destruct H as [H|[P H]]; [split; [lia|intros P; lia]|].
    split; [lia|done].
Qed.

Lemma merge_ordered_witness :
  let portal := [Merger.mkCandidate "portal:7" 1 (9 # 10);
                 Merger.mkCandidate "portal:3" 1 (1 # 2)] in
  let senado := [Merger.mkCandidate "senado:1" 2 (1 # 2);
                 Merger.mkCandidate "senado:9" 2 (1 # 5)] in
  let a := Merger.mkCandidate "senado:1" 2 (1 # 2) in
  let b := Merger.mkCandidate "portal:3" 1 (1 # 2) in
  (Merger.c_score b <= Merger.c_score a)%Q ∧
  ((Merger.c_score a == Merger.c_score b)%Q →
   Merger.c_priority b ≤ Merger.c_priority a ∧
   (Merger.c_priority a = Merger.c_priority b →
    String.le (Merger.c_id a) (Merger.c_id b))).
Proof.
  intros portal senado a b.
  apply (merge_ordered 3 [portal; senado] 1 2 a b).
  - lia.
  - vm_compute. reflexivity.
  - vm_compute. reflexivity.
Defined.

(** * Further properties of the front end *)

Example includes_examples :
  JsText.includes (JsText.toLowerCase "Despesas Educacao") "esp" = true ∧
  JsText.includes "despesas" "" = true ∧
  JsText.includes "" "a" = false ∧
  JsText.includes "abc" "abd" = false ∧
  JsText.set_spread ["b"; "a"; "b"; "c"; "a"] = ["b"; "a"; "c"].
Proof. repeat split. Qed.

(** ** The history, continued *)

Section HistoryMore.
Import SearchContext.

Lemma filter_ne_id (q : string) (h : list string) :
  q ∉ h → filter (λ item, item ≠ q) h = h.
Proof.
  induction h as [|x h IH]; intros Hq; [done|].
  rewrite filter_cons_True.
  - f_equal. apply IH. intros ?. apply Hq. by right.
  - intros ->. apply Hq. by left.
Qed.

Lemma filter_ne_length (q : string) (h : list string) :
  q ∈ h → (List.length (filter (λ item, item ≠ q) h) < List.length h)%nat.
Proof.
  induction h as [|x h IH]; intros Hq; [by inv Hq|].
  destruct (decide (x = q)) as [->|Hx].
  - rewrite filter_cons_False by naive_solver. simpl.
    pose proof (length_filter (λ item, item ≠ q) h). lia.
  - rewrite filter_cons_True by done. simpl.
    apply elem_of_cons in Hq as [->|Hq]; [done|]. apply IH in Hq. lia.
Qed.

Lemma filter_ne_perm (q : string) (h : list string) :
  NoDup h → q ∈ h → q :: filter (λ item, item ≠ q) h ≡ₚ h.
Proof.
  induction h as [|x h IH]; intros Hnd Hq; [by inv Hq|].
  apply NoDup_cons in Hnd as [Hx Hnd].
  destruct (decide (x = q)) as [->|Hne].
  - rewrite filter_cons_False by naive_solver.
    by rewrite filter_ne_id.
  - rewrite filter_cons_True by done.
    apply elem_of_cons in Hq as [->|Hq]; [done|].
    rewrite Permutation_swap. f_equiv. by apply IH.
Qed.

(** Where the provider has saved something it is what it shows. *)
Lemma reachable_stored p :
  reachable p → searchHistory p = default [] (stored p).
Proof.
  induction 1 as [|q p Hp IH|p Hp IH|p Hp IH]; simpl; try done.
  destruct (decide (trim q = "")) as [Hq|Hq].
  - by rewrite addToHistory_blank.
  - by rewrite addToHistory_nonblank.
Qed.
End HistoryMore.

(** X1.  Reloading the page restores the provider: mounting it again from
    what it saved gives back the history it had. *)
Theorem history_survives_reload (p : SearchContext.Provider) :
  SearchContext.reachable p →
  SearchContext.mount (SearchContext.stored p) = p.
Proof.
  intros Hp. apply reachable_stored in Hp.
  destruct p as [h st]. simpl in *. unfold SearchContext.mount. by rewrite Hp.
Qed.

Lemma history_survives_reload_witness :
  let p := SearchContext.addToHistory "obras"
             (SearchContext.addToHistory "saude" (SearchContext.mount None)) in
  SearchContext.mount (SearchContext.stored p) = p.
Proof.
  intros p. apply (history_survives_reload p). repeat constructor.
Defined.

(** X2.  Adding the same query twice in a row is the same as adding it
    once, whatever the history. *)
Theorem addToHistory_idempotent (q : string) (p : SearchContext.Provider) :
  SearchContext.addToHistory q (SearchContext.addToHistory q p)
  = SearchContext.addToHistory q p.
Proof.
  destruct (decide (trim q = "")) as [Hq|Hq].
  - by rewrite !addToHistory_blank.
  - rewrite !addToHistory_nonblank by done. simpl.
    assert (SearchContext.newHistory q
              (SearchContext.newHistory q (SearchContext.searchHistory p))
            = SearchContext.newHistory q (SearchContext.searchHistory p)) as ->;
      [|done].
    rewrite (newHistory_shape q (SearchContext.searchHistory p)).
    rewrite newHistory_shape. f_equal.
    rewrite filter_cons_False by naive_solver.
    rewrite filter_ne_id by apply newHistory_tail_fresh.
    by rewrite take_take.
Qed.

(** X3.  Searching again for a query that is already in the history loses
    no entry: the new history has the same entries as the old one, with the
    query moved to the front. *)
Theorem addToHistory_known_query_keeps_entries (q : string)
    (p : SearchContext.Provider) :
  SearchContext.reachable p →
  trim q ≠ "" →
  q ∈ SearchContext.searchHistory p →
  SearchContext.searchHistory (SearchContext.addToHistory q p)
  = q :: filter (λ item, item ≠ q) (SearchContext.searchHistory p) ∧
  SearchContext.searchHistory (SearchContext.addToHistory q p)
  ≡ₚ SearchContext.searchHistory p.
Proof.
  intros Hp Hq Hin.
  destruct (reachable_history_ok p Hp) as [[Hnd Hlen] _].
  rewrite addToHistory_nonblank by done. simpl.
  assert (SearchContext.newHistory q (SearchContext.searchHistory p)
          = q :: filter (λ item, item ≠ q) (SearchContext.searchHistory p))
    as ->.
  { rewrite newHistory_shape. f_equal. apply take_ge.
    pose proof (filter_ne_length q _ Hin). lia. }
  split; [done|]. by apply filter_ne_perm.
Qed.

Lemma addToHistory_known_query_keeps_entries_witness :
  let p := SearchContext.addToHistory "obras"
             (SearchContext.addToHistory "saude" (SearchContext.mount None)) in
  SearchContext.searchHistory (SearchContext.addToHistory "saude" p)
  = "saude" :: filter (λ item, item ≠ "saude") (SearchContext.searchHistory p) ∧
  SearchContext.searchHistory (SearchContext.addToHistory "saude" p)
  ≡ₚ SearchContext.searchHistory p.
Proof.
  intros p. apply (addToHistory_known_query_keeps_entries "saude" p).
  - repeat constructor.
  - discriminate.
  - vm_compute. right. left.
Defined.

(** X4.  A query that is not yet in the history goes to the front, the
    older entries follow in their order, and only what no longer fits in
    ten entries, the oldest, is dropped. *)
Theorem addToHistory_new_query_evicts_oldest (q : string)
    (p : SearchContext.Provider) :
  trim q ≠ "" →
  q ∉ SearchContext.searchHistory p →
  SearchContext.searchHistory (SearchContext.addToHistory q p)
  = q :: take 9 (SearchContext.searchHistory p).
Proof.
  intros Hq Hin. rewrite addToHistory_nonblank by done. simpl.
  rewrite newHistory_shape. by rewrite filter_ne_id.
Qed.

Lemma addToHistory_new_query_evicts_oldest_witness :
  let p := SearchContext.mkProvider
             ["a"; "b"; "c"; "d"; "e"; "f"; "g"; "h"; "i"; "j"] None in
  SearchContext.searchHistory (SearchContext.addToHistory "k" p)
  = "k" :: take 9 (SearchContext.searchHistory p).
Proof.
  intros p. apply (addToHistory_new_query_evicts_oldest "k" p).
  - discriminate.
  - apply (bool_decide_unpack _). vm_compute. reflexivity.
Defined.

(** ** The hook, continued *)

Section HookMore.
Import UseSearch.

Lemma settle_rejected_hook i e w p :
  inflight w !! i = Some p →
  hook (settle i (Rejected e) w)
  = mkState (results (hook w)) false
            (Some "Falha na busca. Tente novamente.")
            (hasMore (hook w)) (total (hook w)) (page (hook w))
            (query (hook w)) (searchTime (hook w)) (apisSearched (hook w)).
Proof. intros Hp. unfold settle. rewrite Hp. reflexivity. Qed.

Lemma settle_loading i outcome w p :
  inflight w !! i = Some p → loading (hook (settle i outcome w)) = false.
Proof.
  intros Hp. unfold settle. rewrite Hp. by destruct outcome.
Qed.

Lemma settle_idle i outcome w : inflight w !! i = None → settle i outcome w = w.
Proof. intros Hp. unfold settle. by rewrite Hp. Qed.

Lemma search_inflight p resetResults w : inflight (search p resetResults w) ≠ [].
Proof. unfold search. simpl. by destruct (inflight w). Qed.

Lemma step_spinner_ok w e : Observe.spinner_ok w → Observe.spinner_ok (step w e).
Proof.
  unfold Observe.spinner_ok. intros Hw. destruct e as [sp| | |i outcome]; simpl.
  - intros _. apply search_inflight.
  - destruct (loadMore_cases w) as [->| ->]; [done|].
    intros _. apply search_inflight.
  - done.
  - destruct (inflight w !! i) as [p|] eqn:Hp.
    + by rewrite (settle_loading i outcome w p).
    + by rewrite settle_idle.
Qed.

Lemma run_spinner_ok es : ∀ w, Observe.spinner_ok w → Observe.spinner_ok (run w es).
Proof.
  induction es as [|e es IH]; intros w Hw; simpl; [done|].
  apply IH. by apply step_spinner_ok.
Qed.

Lemma abort_all_true (cs : list bool) c :
  List.length cs = S c → take c cs = replicate c true →
  <[c := true]> cs = replicate (S c) true.
Proof.
  intros Hlen Hold. apply list_eq. intros i.
  destruct (decide (i = c)) as [->|Hi].
  - rewrite list_lookup_insert_eq by lia.
    symmetry. apply lookup_replicate_2. lia.
  - rewrite list_lookup_insert_ne by done.
    destruct (decide (i < c)%nat) as [Hlt|Hge].
    + rewrite <- (lookup_take_lt cs c i) by done. rewrite Hold.
      rewrite !lookup_replicate_2 by lia. done.
    + rewrite lookup_ge_None_2 by lia.
      symmetry. apply lookup_replicate_None. lia.
Qed.

Lemma search_controllers_ok p resetResults w :
  Observe.controllers_ok w → Observe.controllers_ok (search p resetResults w).
Proof.
  unfold Observe.controllers_ok, search, abort_current. simpl.
  destruct (abortControllerRef w) as [c|].
  - intros [Hlen Hold]. rewrite length_app, length_insert. simpl.
    split; [lia|].
    rewrite take_app_length'. 2:{ rewrite length_insert. lia. }
    rewrite Hlen. by apply abort_all_true.
  - intros ->. simpl. done.
Qed.

Lemma step_controllers_ok w e :
  Observe.controllers_ok w → Observe.controllers_ok (step w e).
Proof.
  intros Hw. destruct e as [sp| | |i outcome]; simpl.
  - by apply search_controllers_ok.
  - destruct (loadMore_cases w) as [->| ->]; [done|].
    by apply search_controllers_ok.
  - revert Hw. unfold Observe.controllers_ok, clearResults, abort_current.
    simpl. destruct (abortControllerRef w) as [c|]; [|done].
    intros [Hlen Hold]. rewrite length_insert. split; [done|].
    rewrite take_insert_ge by lia. done.
  - revert Hw. unfold Observe.controllers_ok, settle.
    destruct (inflight w !! i); [|done].
    by destruct (SearchService.search _ _).
Qed.

Lemma run_controllers_ok es :
  ∀ w, Observe.controllers_ok w → Observe.controllers_ok (run w es).
Proof.
  induction es as [|e es IH]; intros w Hw; simpl; [done|].
  apply IH. by apply step_controllers_ok.
Qed.
End HookMore.

(** X5.  When the HTTP call of a request fails, whatever the failure (an
    abort included), the hook stops loading and reports the service's fixed
    message; the results, the page and the rest of the state stay as they
    were, and the view is the error view, with no result card. *)
Theorem failed_request_reported (i : nat) (e : JsError) (w : UseSearch.World)
    (p : UseSearch.Pending) (isFetchingMore : bool) :
  UseSearch.inflight w !! i = Some p →
  let w' := UseSearch.settle i (Rejected e) w in
  UseSearch.hook w'
  = UseSearch.mkState
      (UseSearch.results (UseSearch.hook w)) false
      (Some "Falha na busca. Tente novamente.")
      (UseSearch.hasMore (UseSearch.hook w)) (UseSearch.total (UseSearch.hook w))
      (UseSearch.page (UseSearch.hook w)) (UseSearch.query (UseSearch.hook w))
      (UseSearch.searchTime (UseSearch.hook w))
      (UseSearch.apisSearched (UseSearch.hook w)) ∧
  UseSearch.inflight w' = delete i (UseSearch.inflight w) ∧
  ResultsView.render (UseSearch.hook w') isFetchingMore
  = ResultsView.ErrorView "Falha na busca. Tente novamente.".
Proof.
  intros Hp w'. subst w'. split; [by eapply settle_rejected_hook|]. split.
  - unfold UseSearch.settle. rewrite Hp. reflexivity.
  - erewrite settle_rejected_hook by done. reflexivity.
Qed.

Lemma failed_request_reported_witness :
  let w := UseSearch.loadMore
             (UseSearch.respond
                (UseSearch.mkResponse
                   [UseSearch.mkResult "ibge:1" "ibge" "dados" "t1" "d1"]
                   true 3 1 "saude" 9 ["ibge"] None [])
                (UseSearch.search
                   (UseSearch.mkParams "saude" None None None None None) true
                   UseSearch.initial_world)) in
  let w' := UseSearch.settle 0 (Rejected (mkError "AbortError" "aborted")) w in
  UseSearch.results (UseSearch.hook w')
  = [UseSearch.mkResult "ibge:1" "ibge" "dados" "t1" "d1"] ∧
  ResultsView.render (UseSearch.hook w') false
  = ResultsView.ErrorView "Falha na busca. Tente novamente.".
Proof.
  intros w w'.
  destruct (failed_request_reported 0 (mkError "AbortError" "aborted") w
              (UseSearch.mkPending
                 (UseSearch.requestData
                    (UseSearch.mkState
                       [UseSearch.mkResult "ibge:1" "ibge" "dados" "t1" "d1"]
                       false None true 3 1 "saude" 9 ["ibge"])
                    (UseSearch.mkParams "saude" (Some 20) None None None None)
                    false)
                 None false)
              false) as (H1 & _ & H3).
  - reflexivity.
  - split; [|exact H3]. subst w'. rewrite H1. reflexivity.
Defined.

(** X6.  However searches, load-mores, clears and answers interleave, the
    hook never stays loading with nothing on the wire: once the last
    request has settled, [loading] is false. *)
Theorem no_stuck_loading (es : list UseSearch.Event) :
  UseSearch.inflight (UseSearch.run UseSearch.initial_world es) = [] →
  UseSearch.loading (UseSearch.hook (UseSearch.run UseSearch.initial_world es))
  = false.
Proof.
  intros Hidle.
  apply not_true_is_false. intros Hload.
  by apply (run_spinner_ok es UseSearch.initial_world).
Qed.

Lemma no_stuck_loading_witness :
  UseSearch.loading
    (UseSearch.hook
       (UseSearch.run UseSearch.initial_world
          [UseSearch.EvSearch
             (UseSearch.mkParams "saude" None None None None None);
           UseSearch.EvSearch
             (UseSearch.mkParams "obras" None None None None None);
           UseSearch.EvSettle 1 (Rejected (mkError "TypeError" "Failed to fetch"));
           UseSearch.EvSettle 0
             (Resolved (UseSearch.mkResponse [] false 0 1 "saude" 4 [] None []))]))
  = false.
Proof.
  apply (no_stuck_loading
           [UseSearch.EvSearch
              (UseSearch.mkParams "saude" None None None None None);
            UseSearch.EvSearch
              (UseSearch.mkParams "obras" None None None None None);
            UseSearch.EvSettle 1 (Rejected (mkError "TypeError" "Failed to fetch"));
            UseSearch.EvSettle 0
              (Resolved (UseSearch.mkResponse [] false 0 1 "saude" 4 [] None []))]).
  reflexivity.
Defined.

(** X7.  Whatever the hook goes through, the ref holds the controller
    created last, and every controller created before it has been
    aborted. *)
Theorem controllers_bookkeeping (es : list UseSearch.Event) :
  Observe.controllers_ok (UseSearch.run UseSearch.initial_world es).
Proof. apply run_controllers_ok. reflexivity. Qed.

(** X8.  A scroll event, with the effects it sets off, issues at most one
    request, and only when no fetch is under way, [hasMore] is true, nothing
    is loading, a query is active, and the bottom of the viewport is more
    than 1000 pixels above the end of the document; the request then asks
    for [state.page + 1] of that query.  Otherwise the hook is left as it
    is. *)
Theorem scroll_requests (v : InfiniteScroll.Viewport) (isFetching : bool)
    (w : UseSearch.World) :
  InfiniteScroll.on_scroll v isFetching w = w ∨
  (isFetching = false ∧
   UseSearch.hasMore (UseSearch.hook w) = true ∧
   UseSearch.loading (UseSearch.hook w) = false ∧
   UseSearch.query (UseSearch.hook w) ≠ "" ∧
   InfiniteScroll.innerHeight v + InfiniteScroll.scrollTop v
   < InfiniteScroll.offsetHeight v - 1000 ∧
   ∃ req, UseSearch.inflight (InfiniteScroll.on_scroll v isFetching w)
          = (UseSearch.inflight w ++ [req])%list ∧
          UseSearch.p_body req
          = <["limit" := JNum 20]>
              (<["page" := JNum (js_add (UseSearch.page (UseSearch.hook w)) 1)]>
                 {["query" := JStr (UseSearch.query (UseSearch.hook w))]}) ∧
          UseSearch.p_resetResults req = false).
Proof.
  unfold InfiniteScroll.on_scroll, InfiniteScroll.handleScroll.
  destruct (Z.geb_spec (InfiniteScroll.innerHeight v + InfiniteScroll.scrollTop v)
              (InfiniteScroll.offsetHeight v - 1000)) as [Hnear|Hfar]; simpl.
  { left. by destruct isFetching. }
  destruct isFetching; simpl; [by left|].
  destruct (UseSearch.hasMore (UseSearch.hook w)) eqn:Hmore; simpl; [|by left].
  destruct (UseSearch.loading (UseSearch.hook w)) eqn:Hload; simpl; [by left|].
  destruct (truthy_str (UseSearch.query (UseSearch.hook w))) eqn:Hq.
  - assert (UseSearch.loadMore w
            = UseSearch.search
                (UseSearch.mkParams (UseSearch.query (UseSearch.hook w))
                                    (Some 20) None None None None)
                false w) as ->.
    { unfold UseSearch.loadMore. by rewrite Hmore, Hload, Hq. }
    simpl. unfold UseSearch.loadMore. simpl.
    right. repeat split; [|lia|].
    + intros Hempty. rewrite Hempty in Hq. discriminate.
    + eexists. split; [reflexivity|]. split; reflexivity.
  - assert (UseSearch.loadMore w = w) as ->.
    { unfold UseSearch.loadMore. by rewrite Hmore, Hload, Hq. }
    rewrite Hload. by left.
Qed.

Example scroll_far_from_the_end_fetches_once :
  let w := UseSearch.mkWorld
             (UseSearch.mkState [] false None true 40 1 "saude" 12 ["ibge"])
             (Some 0%nat) [false] [] in
  List.length
    (UseSearch.inflight
       (InfiniteScroll.on_scroll (InfiniteScroll.mkViewport 800 1200 5000)
                                 false w)) = 1%nat.
Proof. reflexivity. Qed.

(** ** The view, continued *)

(** X9.  The result cards are on display exactly when there is at least one
    result and no error message: an error hides the results that were
    already loaded, and while results exist neither the loading view nor
    the empty views replace them. *)
Theorem list_shown_iff (st : UseSearch.HookState) (isFetchingMore : bool) :
  Observe.is_list_view (ResultsView.render st isFetchingMore)
  = negb (bool_decide (UseSearch.results st = []))
    && negb (UseSearch.opt_truthy_str (UseSearch.error st)).
Proof.
  unfold ResultsView.render.
  destruct (UseSearch.results st) as [|x l]; simpl.
  - rewrite !andb_true_r.
    destruct (UseSearch.loading st); simpl; [done|].
    destruct (UseSearch.opt_truthy_str (UseSearch.error st)); simpl; [done|].
    by destruct (truthy_str (UseSearch.query st)).
  - rewrite !andb_false_r. simpl.
    by destruct (UseSearch.opt_truthy_str (UseSearch.error st)).
Qed.

Section CardKeys.

Lemma string_app_nil (s : string) : "" +:+ s = s.
Proof. reflexivity. Qed.

Lemma string_app_cons c (a s : string) : String c a +:+ s = String c (a +:+ s).
Proof. reflexivity. Qed.

Lemma dash_free_app_dash a d : ¬ Observe.dash_free (a +:+ "-" +:+ d).
Proof.
  unfold Observe.dash_free. intros H. apply H. clear H.
  induction a as [|c a IH].
  - rewrite string_app_nil, string_app_cons. simpl. by left.
  - rewrite string_app_cons. simpl. by right.
Qed.

Lemma pretty_N_go_dash_free x : ∀ s, Observe.dash_free s → Observe.dash_free (pretty_N_go x s).
Proof.
  induction (N.lt_wf_0 x) as [x _ IH]; intros s Hs.
  assert (x = 0 ∨ 0 < x)%N as [->|Hx] by lia.
  - by rewrite pretty_N_go_0.
  - rewrite pretty_N_go_step by done. apply IH.
    { by apply N.div_lt. }
    unfold Observe.dash_free in *. simpl. intros Hin.
    apply elem_of_cons in Hin as [Hc|Hin]; [|done].
    revert Hc. unfold pretty_N_char. by repeat case_match.
Qed.

Lemma pretty_nat_dash_free (n : nat) : Observe.dash_free (pretty n).
Proof.
  unfold pretty, pretty_nat, pretty, pretty_N.
  case_decide.
  - unfold Observe.dash_free. simpl. intros Hin.
    apply elem_of_cons in Hin as [Hc|Hin]; [done|by inv Hin].
  - apply pretty_N_go_dash_free. unfold Observe.dash_free. simpl. by inversion 1.
Qed.

(** A key determines its index, hence two cards at different positions
    have different keys even when their results share an id. *)
Lemma key_suffix_inj a : ∀ b d1 d2,
  Observe.dash_free d1 → Observe.dash_free d2 →
  a +:+ "-" +:+ d1 = b +:+ "-" +:+ d2 → d1 = d2.
Proof.
  induction a as [|c a IH]; intros [|c' b] d1 d2 H1 H2 E;
    repeat (rewrite string_app_nil in E || rewrite string_app_cons in E).
  - by injection E.
  - injection E as <- E. subst d1. by destruct (dash_free_app_dash b d2).
  - injection E as -> E. subst d2. by destruct (dash_free_app_dash a d1).
  - injection E as -> E. by apply (IH b).
Qed.
End CardKeys.

(** X10.  Whatever is rendered, the cards carry pairwise different keys,
    also when several results share an id, and the cards shown are the
    results of the state, one card each and in order. *)
Theorem card_keys_distinct (st : UseSearch.HookState) (isFetchingMore : bool) :
  let cards := Observe.cards_of (ResultsView.render st isFetchingMore) in
  NoDup (ResultsView.key <$> cards) ∧
  (Observe.is_list_view (ResultsView.render st isFetchingMore) = true →
   ResultsView.card_result <$> cards = UseSearch.results st).
Proof.
  assert (∀ l : list UseSearch.SearchResult,
            NoDup (ResultsView.key <$> imap ResultsView.card l)) as Hkeys.
  { intros l. apply NoDup_alt. intros i j k Hi Hj.
    rewrite list_lookup_fmap, list_lookup_imap in Hi, Hj.
    destruct (l !! i) as [x|]; [|done]. destruct (l !! j) as [y|]; [|done].
    simpl in Hi, Hj. injection Hi as Hi. injection Hj as Hj.
    rewrite <- Hj in Hi. unfold ResultsView.card in Hi. simpl in Hi.
    apply key_suffix_inj in Hi; [|apply pretty_nat_dash_free..].
    by apply (inj pretty) in Hi. }
  assert (∀ l : list UseSearch.SearchResult,
            ResultsView.card_result <$> imap ResultsView.card l = l) as Hres.
  { intros l. apply list_eq. intros i.
    rewrite list_lookup_fmap, list_lookup_imap.
    by destruct (l !! i). }
  intros cards. subst cards. unfold ResultsView.render.
  repeat case_match; simpl; (split; [first [apply Hkeys|constructor]|]);
    first [discriminate|intros _; apply Hres].
Qed.

Lemma card_keys_distinct_witness :
  let r := UseSearch.mkResult "ibge:1" "ibge" "dados" "t1" "d1" in
  let st := UseSearch.mkState [r; r] false None false 2 1 "saude" 3 ["ibge"] in
  ResultsView.key <$> Observe.cards_of (ResultsView.render st false)
  = ["ibge:1-0"; "ibge:1-1"] ∧
  ResultsView.card_result <$> Observe.cards_of (ResultsView.render st false)
  = [r; r].
Proof.
  intros r st. split; [reflexivity|].
  apply (card_keys_distinct st false). reflexivity.
Defined.

(** ** The request body, continued *)

(** X11.  A request body has the properties [query], [page] and [limit];
    [apis] and [categories] exactly when the caller supplies them (an empty
    array included); [date_start] and [date_end] exactly when the caller
    supplies a non-empty date; and nothing else. *)
Theorem requestData_keys (st : UseSearch.HookState)
    (p : UseSearch.SearchParams) (resetResults : bool) :
  dom (UseSearch.requestData st p resetResults)
  = ({["query"; "page"; "limit"]} : gset string)
    ∪ (if bool_decide (is_Some (UseSearch.sp_apis p))
       then {["apis"]} else ∅)
    ∪ (if bool_decide (is_Some (UseSearch.sp_categories p))
       then {["categories"]} else ∅)
    ∪ (if UseSearch.opt_truthy_str (UseSearch.sp_dateStart p)
       then {["date_start"]} else ∅)
    ∪ (if UseSearch.opt_truthy_str (UseSearch.sp_dateEnd p)
       then {["date_end"]} else ∅).
Proof.
  unfold UseSearch.requestData, UseSearch.spread_if.
  destruct (bool_decide (is_Some (UseSearch.sp_apis p)));
    destruct (bool_decide (is_Some (UseSearch.sp_categories p)));
    destruct (UseSearch.opt_truthy_str (UseSearch.sp_dateStart p));
    destruct (UseSearch.opt_truthy_str (UseSearch.sp_dateEnd p));
    rewrite ?dom_insert_L, dom_singleton_L; set_solver.
Qed.

(** ** The search bar *)

Section Trim.

Lemma trimStart_cases s :
  trimStart s = "" ∨
  ∃ c rest, trimStart s = String c rest ∧ is_whitespace c = false.
Proof.
  induction s as [|c s IH]; simpl; [by left|].
  destruct (is_whitespace c) eqn:Hc; [done|]. right. by exists c, s.
Qed.

Lemma trimEnd_head c rest :
  is_whitespace c = false → ∃ rest', trimEnd (String c rest) = String c rest'.
Proof.
  intros Hc. simpl. rewrite Hc. destruct (trimEnd rest); by eexists.
Qed.

Lemma trimEnd_idem s : trimEnd (trimEnd s) = trimEnd s.
Proof.
  induction s as [|c s IH]; simpl; [done|].
  destruct (trimEnd s) as [|c' t] eqn:E.
  - destruct (is_whitespace c) eqn:Hc; simpl; [done|]. by rewrite Hc.
  - change (trimEnd (String c (String c' t))) with
      (match trimEnd (String c' t) with
       | "" => if is_whitespace c then "" else String c ""
       | t' => String c t'
       end).
    by rewrite IH.
Qed.

(** [trim] leaves a trimmed string alone. *)
Lemma trim_idem s : trim (trim s) = trim s.
Proof.
  unfold trim. destruct (trimStart_cases s) as [->|(c & rest & -> & Hc)].
  - reflexivity.
  - destruct (trimEnd_head c rest Hc) as [rest' E]. rewrite E.
    simpl trimStart. rewrite Hc. rewrite <- E. apply trimEnd_idem.
Qed.
End Trim.

Section Bar.
Import SearchBar.

Lemma performSearch_request q a :
  ∃ req,
    UseSearch.inflight (world (performSearch q a))
    = (UseSearch.inflight (world a) ++ [req])%list ∧
    UseSearch.p_body req !! "query" = Some (JStr q) ∧
    UseSearch.p_body req !! "page" = Some (JNum 1).
Proof.
  unfold performSearch, Home.handleSearch, UseSearch.search. simpl.
  eexists. split; [reflexivity|]. simpl.
  by rewrite requestData_query, requestData_page.
Qed.
End Bar.

(** X12.  Submitting the form with a blank query does nothing at all.
    Otherwise the trimmed query, which is not blank and has no white space
    around it, becomes the first entry of the history and occurs nowhere
    else in it, exactly one request is issued, for page 1 of that trimmed
    query, and the suggestions are closed. *)
Theorem handleSubmit_trimmed (a : SearchBar.App) :
  let q := trim (SearchBar.query (SearchBar.bar a)) in
  let a' := SearchBar.handleSubmit a in
  (q = "" → a' = a) ∧
  (q ≠ "" →
   trim q = q ∧
   (∃ tail, SearchContext.searchHistory (SearchBar.provider a') = q :: tail
            ∧ q ∉ tail) ∧
   (∃ req,
      UseSearch.inflight (SearchBar.world a')
      = (UseSearch.inflight (SearchBar.world a) ++ [req])%list ∧
      UseSearch.p_body req !! "query" = Some (JStr q) ∧
      UseSearch.p_body req !! "page" = Some (JNum 1)) ∧
   SearchBar.bar a'
   = SearchBar.mkBar (SearchBar.query (SearchBar.bar a))
       (SearchBar.suggestions (SearchBar.bar a)) false (-1)).
Proof.
  intros q a'. subst q a'. unfold SearchBar.handleSubmit. split.
  - intros Hq. rewrite Hq. reflexivity.
  - intros Hq.
    assert (truthy_str (trim (SearchBar.query (SearchBar.bar a))) = true) as ->.
    { unfold truthy_str. apply negb_true_iff. by apply String.eqb_neq. }
    split; [apply trim_idem|]. split; [|split].
    + unfold SearchBar.performSearch. simpl.
      rewrite addToHistory_nonblank by (by rewrite trim_idem). simpl.
      eexists. split; [apply newHistory_shape|apply newHistory_tail_fresh].
    + apply performSearch_request.
    + reflexivity.
Qed.

Lemma handleSubmit_trimmed_witness :
  let a := SearchBar.with_bar (SearchBar.mkBar "  saude " [] false (-1))
             SearchBar.initial_app in
  ∃ tail,
    SearchContext.searchHistory (SearchBar.provider (SearchBar.handleSubmit a))
    = "saude" :: tail ∧ "saude" ∉ tail.
Proof.
  intros a.
  destruct (handleSubmit_trimmed a) as [_ H].
  destruct H as (_ & Hhist & _ & _); [discriminate|]. exact Hhist.
Defined.

(** X13.  While the selected index points at a suggestion or at none (-1),
    no key makes the handler fail, and after the key the index again
    points at a suggestion or at none; the suggestions are the same. *)
Theorem handleKeyDown_index (key : string) (a : SearchBar.App) :
  SearchBar.index_in_range (SearchBar.bar a) →
  ∃ a', SearchBar.handleKeyDown key a = Some a' ∧
        SearchBar.index_in_range (SearchBar.bar a') ∧
        SearchBar.suggestions (SearchBar.bar a')
        = SearchBar.suggestions (SearchBar.bar a).
Proof.
  unfold SearchBar.index_in_range, SearchBar.handleKeyDown.
  intros [Hlo Hhi].
  destruct (negb _ || _); [by eauto|].
  destruct (String.eqb key "ArrowDown").
  { eexists. split; [done|]. simpl. split; [|done].
    destruct (Z.ltb_spec (SearchBar.selectedIndex (SearchBar.bar a))
                (Z.of_nat (List.length (SearchBar.suggestions (SearchBar.bar a))) - 1));
      lia. }
  destruct (String.eqb key "ArrowUp").
  { eexists. split; [done|]. simpl. split; [|done].
    destruct (Z.ltb_spec 0 (SearchBar.selectedIndex (SearchBar.bar a))); lia. }
  destruct (String.eqb key "Enter").
  { destruct (Z.leb_spec 0 (SearchBar.selectedIndex (SearchBar.bar a))) as [Hsel|Hsel].
    - destruct (lookup_lt_is_Some_2 (SearchBar.suggestions (SearchBar.bar a))
                  (Z.to_nat (SearchBar.selectedIndex (SearchBar.bar a))))
        as [x Hx]; [lia|].
      rewrite Hx. eexists. split; [done|]. simpl. split; [lia|done].
    - destruct (truthy_str _); eexists; (split; [done|]); simpl;
        (split; [lia|done]). }
  destruct (String.eqb key "Escape").
  { eexists. split; [done|]. simpl. split; [lia|done]. }
  eauto.
Qed.

Lemma handleKeyDown_index_witness :
  let a := SearchBar.with_bar
             (SearchBar.mkBar "sa" ["saude"; "saneamento"] true 1)
             SearchBar.initial_app in
  ∃ a', SearchBar.handleKeyDown "ArrowDown" a = Some a' ∧
        SearchBar.index_in_range (SearchBar.bar a') ∧
        SearchBar.suggestions (SearchBar.bar a')
        = SearchBar.suggestions (SearchBar.bar a).
Proof.
  intros a. apply (handleKeyDown_index "ArrowDown" a).
  unfold SearchBar.index_in_range. simpl. lia.
Defined.

(** A list of suggestions that shrinks under a selected index is the one
    way out of that range: Enter then fails. *)
Example handleKeyDown_stale_index :
  let a := SearchBar.with_bar
             (SearchBar.mkBar "sa" ["saude"; "saneamento"] true 1)
             SearchBar.initial_app in
  SearchBar.handleKeyDown "Enter" (SearchBar.fetchSuggestions "sau" ["saude"] a)
  = None.
Proof. reflexivity. Qed.

Section Suggestions.
Import JsText.

Lemma set_add_fold_NoDup items : ∀ acc,
  NoDup acc → NoDup (foldl set_add acc items).
Proof.
  induction items as [|x items IH]; intros acc Hacc; simpl; [done|].
  apply IH. unfold set_add. case_decide; [done|].
  apply NoDup_app. split; [done|]. split.
  - intros y Hy Hyx. apply list_elem_of_singleton in Hyx. by subst.
  - apply NoDup_singleton.
Qed.

Lemma set_add_fold_elem items : ∀ acc x,
  x ∈ foldl set_add acc items → x ∈ acc ∨ x ∈ items.
Proof.
  induction items as [|y items IH]; intros acc x Hx; simpl in Hx; [by left|].
  apply IH in Hx as [Hx|Hx]; [|right; by right].
  unfold set_add in Hx. case_decide; [by left|].
  apply elem_of_app in Hx as [Hx|Hx]; [by left|].
  apply list_elem_of_singleton in Hx. subst. right. by left.
Qed.

Lemma set_add_fold_prefix items : ∀ acc, acc `prefix_of` foldl set_add acc items.
Proof.
  induction items as [|y items IH]; intros acc; simpl; [done|].
  etrans; [|apply IH]. unfold set_add. case_decide; [done|].
  by apply prefix_app_r.
Qed.

Lemma set_add_fold_fresh items : ∀ acc,
  NoDup (acc ++ items) → foldl set_add acc items = (acc ++ items)%list.
Proof.
  induction items as [|y items IH]; intros acc Hnd; simpl.
  - by rewrite app_nil_r.
  - assert (y ∉ acc) as Hy.
    { apply NoDup_app in Hnd as (_ & Hdisj & _).
      intros Hin. apply (Hdisj y Hin). by left. }
    unfold set_add. rewrite decide_False by done.
    rewrite IH; rewrite <- app_assoc; done.
Qed.

Lemma set_spread_app_prefix (hs api : list string) :
  NoDup hs → hs `prefix_of` set_spread (hs ++ api).
Proof.
  intros Hnd. unfold set_spread. rewrite foldl_app.
  rewrite (set_add_fold_fresh hs []) by done. simpl.
  apply set_add_fold_prefix.
Qed.
End Suggestions.

(** X14.  For a query of two characters or more, the suggestions put on
    display have no entry twice and are at most eight; each is a suggestion
    of the service or an entry of the history that contains the query,
    letter case aside; and the matching history entries come first, in the
    order of the history. *)
Theorem fetchSuggestions_combined (debouncedQuery : string)
    (apiSuggestions : list string) (a : SearchBar.App) :
  (2 ≤ String.length debouncedQuery)%nat →
  SearchContext.reachable (SearchBar.provider a) →
  let history := SearchContext.searchHistory (SearchBar.provider a) in
  let b := SearchBar.bar
             (SearchBar.fetchSuggestions debouncedQuery apiSuggestions a) in
  SearchBar.showSuggestions b = true ∧
  NoDup (SearchBar.suggestions b) ∧
  (List.length (SearchBar.suggestions b) ≤ 8)%nat ∧
  Forall (λ x, x ∈ apiSuggestions ∨
               (x ∈ history ∧
                JsText.includes (JsText.toLowerCase x)
                                (JsText.toLowerCase debouncedQuery) = true))
         (SearchBar.suggestions b) ∧
  take 8 (SearchBar.historySuggestions debouncedQuery history)
  `prefix_of` SearchBar.suggestions b.
Proof.
  intros Hlen Hp history b. subst history b.
  unfold SearchBar.fetchSuggestions.
  assert ((2 <=? String.length debouncedQuery)%nat = true) as ->
    by by apply Nat.leb_le.
  simpl. unfold SearchBar.combinedSuggestions.
  destruct (reachable_history_ok _ Hp) as [[Hnd _] _].
  split; [done|]. split; [|split; [|split]].
  - eapply sublist_NoDup; [|apply sublist_take].
    apply set_add_fold_NoDup. constructor.
  - rewrite length_take. lia.
  - apply Forall_forall. intros x Hx. apply subseteq_take in Hx.
    apply set_add_fold_elem in Hx as [Hx|Hx]; [by inv Hx|].
    apply elem_of_app in Hx as [Hx|Hx]; [|by left].
    right. unfold SearchBar.historySuggestions in Hx.
    apply list_elem_of_In, filter_In in Hx as [Hx ?].
    by apply list_elem_of_In in Hx.
  - destruct (set_spread_app_prefix
                (SearchBar.historySuggestions debouncedQuery
                   (SearchContext.searchHistory (SearchBar.provider a)))
                apiSuggestions) as [k ->].
    { unfold SearchBar.historySuggestions.
      apply NoDup_ListNoDup, List.NoDup_filter. by apply NoDup_ListNoDup. }
    rewrite take_app. by apply prefix_app_r.
Qed.

Lemma fetchSuggestions_combined_witness :
  let a := SearchBar.mkApp
             (SearchContext.addToHistory "obras"
                (SearchContext.addToHistory "Saude publica"
                   (SearchContext.mount None)))
             SearchContext.initial_filters UseSearch.initial_world
             SearchBar.initial_bar in
  let b := SearchBar.bar
             (SearchBar.fetchSuggestions "sau" ["saude"; "Saude publica"] a) in
  NoDup (SearchBar.suggestions b) ∧
  SearchBar.suggestions b = ["Saude publica"; "saude"].
Proof.
  intros a b.
  destruct (fetchSuggestions_combined "sau" ["saude"; "Saude publica"] a)
    as (_ & Hnd & _).
  - simpl. lia.
  - repeat constructor.
  - split; [exact Hnd|reflexivity].
Defined.

(** ** The hook: clearing and provenance *)

(** X15.  [clearResults] brings the state back to the initial one whatever
    it was: the welcome view is shown, [loadMore] has nothing to do, and
    clearing again changes nothing. *)
Theorem clearResults_resets (w : UseSearch.World) (isFetchingMore : bool) :
  let w' := UseSearch.clearResults w in
  UseSearch.hook w' = UseSearch.initial_state ∧
  ResultsView.render (UseSearch.hook w') isFetchingMore = ResultsView.WelcomeView ∧
  UseSearch.loadMore w' = w' ∧
  UseSearch.clearResults w' = w'.
Proof.
  intros w'. subst w'. repeat split.
  unfold UseSearch.clearResults, UseSearch.abort_current. simpl.
  destruct (UseSearch.abortControllerRef w) as [c|]; [|done].
  by rewrite list_insert_insert_eq.
Qed.

Section Provenance.
Import UseSearch.

Lemma answered_snoc es e x : Observe.answered es x → Observe.answered (es ++ [e]) x.
Proof.
  intros (i & r & Hin & Hx). exists i, r. split; [|done].
  apply elem_of_app. by left.
Qed.

Lemma run_snoc w es e : run w (es ++ [e]) = step (run w es) e.
Proof. unfold run. by rewrite foldl_app. Qed.

Lemma results_answered es : ∀ x,
  x ∈ results (hook (run initial_world es)) → Observe.answered es x.
Proof.
  induction es as [|e es IH] using rev_ind; intros x Hx.
  { by inv Hx. }
  rewrite run_snoc in Hx.
  destruct e as [sp| | |i outcome]; simpl in Hx.
  - by inv Hx.
  - apply answered_snoc, IH.
    destruct (loadMore_cases (run initial_world es)) as [E|E];
      rewrite E in Hx; done.
  - by inv Hx.
  - unfold settle in Hx.
    destruct (inflight (run initial_world es) !! i) as [p|];
      [|by apply answered_snoc, IH].
    destruct outcome as [r|e]; simpl in Hx.
    + assert (x ∈ results (hook (run initial_world es)) ∨ x ∈ r_results r)
        as [Hold|Hnew].
      { destruct (p_resetResults p); [by right|].
        by apply elem_of_app in Hx. }
      * by apply answered_snoc, IH.
      * exists i, r. split; [|done]. apply elem_of_app. right. by left.
    + by apply answered_snoc, IH.
Qed.
End Provenance.

(** X16.  The hook shows nothing of its own making: every result in the
    state, after any sequence of searches, load-mores, clears and settled
    requests, came in one of the answers received. *)
Theorem results_come_from_answers (es : list UseSearch.Event)
    (x : UseSearch.SearchResult) :
  x ∈ UseSearch.results (UseSearch.hook (UseSearch.run UseSearch.initial_world es)) →
  ∃ i r, UseSearch.EvSettle i (Resolved r) ∈ es ∧ x ∈ UseSearch.r_results r.
Proof. apply results_answered. Qed.

Lemma results_come_from_answers_witness :
  let x := UseSearch.mkResult "ibge:1" "ibge" "dados" "t1" "d1" in
  let answer := UseSearch.mkResponse [x] true 3 1 "saude" 9 ["ibge"] None [] in
  let es := [UseSearch.EvSearch
               (UseSearch.mkParams "saude" None None None None None);
             UseSearch.EvSettle 0 (Resolved answer);
             UseSearch.EvLoadMore] in
  ∃ i r, UseSearch.EvSettle i (Resolved r) ∈ es ∧ x ∈ UseSearch.r_results r.
Proof.
  intros x answer es. apply (results_come_from_answers es x).
  vm_compute. left.
Defined.

(** ** The result card *)

Section FieldLabel.
Import ResultCard.

Lemma lower_char_not_capital c : is_capital (JsText.lower_char c) = false.
Proof. destruct c as [[] [] [] [] [] [] [] []]; reflexivity. Qed.

Lemma lower_char_space c :
  Ascii.eqb (JsText.lower_char c) " " = Ascii.eqb c " ".
Proof. destruct c as [[] [] [] [] [] [] [] []]; reflexivity. Qed.

Lemma capital_not_space c : is_capital c = true → Ascii.eqb c " " = false.
Proof. destruct c as [[] [] [] [] [] [] [] []]; done. Qed.

Lemma toLowerCase_no_capital s :
  Forall (λ c, is_capital c = false)
         (list_ascii_of_string (JsText.toLowerCase s)).
Proof.
  induction s as [|c s IH]; simpl; constructor; [|done].
  apply lower_char_not_capital.
Qed.

Lemma unspaced_lower s :
  unspaced (JsText.toLowerCase s) = JsText.toLowerCase (unspaced s).
Proof.
  induction s as [|c s IH]; simpl; [done|].
  rewrite lower_char_space. destruct (Ascii.eqb c " "); simpl; by rewrite IH.
Qed.

Lemma unspaced_space_capitals s : unspaced (space_capitals s) = unspaced s.
Proof.
  induction s as [|c s IH]; simpl; [done|].
  destruct (is_capital c) eqn:Hc; simpl; rewrite IH; [|done].
  by rewrite (capital_not_space c Hc).
Qed.
End FieldLabel.

Section FieldLabelShape.
Import ResultCard.

Lemma fieldLabel_cons c key :
  fieldLabel (String c key) = label_char c +:+ fieldLabel key.
Proof.
  unfold fieldLabel, label_char. simpl.
  destruct (is_capital c); simpl; rewrite ?string_app_cons, string_app_nil;
    [|done].
  assert (JsText.lower_char " " = " "%char) as -> by reflexivity. done.
Qed.

Lemma string_app_assoc (a b c : string) : (a +:+ b) +:+ c = a +:+ (b +:+ c).
Proof.
  induction a as [|x a IH]; [done|].
  by rewrite !string_app_cons, IH.
Qed.

Lemma fieldLabel_app a b : fieldLabel (a +:+ b) = fieldLabel a +:+ fieldLabel b.
Proof.
  induction a as [|c a IH]; [done|].
  rewrite string_app_cons, !fieldLabel_cons, IH.
  by rewrite string_app_assoc.
Qed.

Lemma string_app_length (a b : string) :
  String.length (a +:+ b) = (String.length a + String.length b)%nat.
Proof.
  induction a as [|x a IH]; [done|].
  rewrite string_app_cons. simpl. by rewrite IH.
Qed.

Lemma fieldLabel_length key :
  String.length (fieldLabel key) = (String.length key + capitals key)%nat.
Proof.
  induction key as [|c key IH]; [done|].
  rewrite fieldLabel_cons, string_app_length, IH. unfold label_char. simpl.
  destruct (is_capital c); simpl; lia.
Qed.
End FieldLabelShape.

(** X17.  The text of the label of a data field is the key with each
    capital A-Z turned into a space followed by its small letter, at the
    place where the capital stood, and every other character in lower case.
    So the text has no capital A-Z and is longer than the key by the number
    of its capitals.  (The style sheet class of the label restyles the text
    on screen; this is the text itself.) *)
Theorem fieldLabel_spec (before after : string) (c : ascii) :
  let key := before +:+ String c after in
  ResultCard.fieldLabel key
  = ResultCard.fieldLabel before
    +:+ (if ResultCard.is_capital c
         then String " " (String (JsText.lower_char c) "")
         else String (JsText.lower_char c) "")
    +:+ ResultCard.fieldLabel after ∧
  Forall (λ x, ResultCard.is_capital x = false)
         (list_ascii_of_string (ResultCard.fieldLabel key)) ∧
  String.length (ResultCard.fieldLabel key)
  = (String.length key + ResultCard.capitals key)%nat ∧
  ResultCard.unspaced (ResultCard.fieldLabel key)
  = JsText.toLowerCase (ResultCard.unspaced key).
Proof.
  intros key. subst key. split; [|split; [|split]].
  - rewrite fieldLabel_app, fieldLabel_cons. reflexivity.
  - apply toLowerCase_no_capital.
  - apply fieldLabel_length.
  - unfold ResultCard.fieldLabel.
    by rewrite unspaced_lower, unspaced_space_capitals.
Qed.

Example fieldLabel_example :
  ResultCard.fieldLabel "valorTotalPago" = "valor total pago" ∧
  ResultCard.fieldLabel "CNPJ" = " c n p j".
Proof. split; reflexivity. Qed.
